(** * ChatGPT_unofficial_API_Node: the prompt flow and the API-key gate

    A shallow embedding of [src/flows/prompt-flow.js] ([promptWithOptions]:
    navigation, submission, the polling loop that waits for a streamed reply
    to stop changing, cleaning, thread-id extraction) and of the Express
    middleware [verifyApiKey].

    JavaScript strings are modelled by [string]; a value that may be [null]
    or [undefined] by [option].  The browser is an environment: a [page]
    records what the site answers to each Puppeteer call of the flow, and a
    run of the flow is a trace of the calls it made together with the value
    it returned or the error it threw. *)

From Stdlib Require Import String Ascii List Bool Arith NArith Lia.
Import ListNotations.
Local Open Scope string_scope.

(** ** JavaScript values *)

Module Js.

(** Truthiness of a string: every string but the empty one. *)
Definition truthy (s : string) : bool :=
  match s with
  | EmptyString => false
  | String _ _ => true
  end.

(** Truthiness of a value that is a string, [null] or [undefined]. *)
Definition truthy_opt (v : option string) : bool :=
  match v with
  | Some s => truthy s
  | None => false
  end.

(** [a === b] on values that are strings or [undefined]. *)
Definition strict_eq (a b : option string) : bool :=
  match a, b with
  | Some x, Some y => String.eqb x y
  | None, None => true
  | _, _ => false
  end.

(** [a || null] on a string. *)
Definition or_null (s : string) : option string :=
  if truthy s then Some s else None.

(** What a template literal interpolates for a string or [undefined]. *)
Definition interpolate (v : option string) : string :=
  match v with
  | Some s => s
  | None => "undefined"
  end.

(** What a template literal interpolates for what [pop] hands back from an
    array of strings and [null]s: the string itself, the word [null], and
    the word [undefined] when the array was empty. *)
Definition interpolate_popped (v : option (option string)) : string :=
  match v with
  | Some (Some s) => s
  | Some None => "null"
  | None => "undefined"
  end.

(** [Array.prototype.pop], for its result: the last element, and [None] for
    the [undefined] of the empty array.  It never throws. *)
Fixpoint pop {A : Type} (ids : list A) : option A :=
  match ids with
  | [] => None
  | [x] => Some x
  | _ :: rest => pop rest
  end.

(** [s.slice(0, n)]. *)
Definition slice0 (n : nat) (s : string) : string := substring 0 n s.

End Js.

(** ** The thread id of a URL: [url.match(/\/c\/([0-9a-f\-]+)/)] *)

Module ThreadId.

(** The character class [[0-9a-f\-]]. *)
Definition in_class (c : ascii) : bool :=
  let n := nat_of_ascii c in
  (((48 <=? n) && (n <=? 57)) || ((97 <=? n) && (n <=? 102)) || (n =? 45))%nat.

(** The greedy [[0-9a-f\-]*] at the start of [s]: its longest prefix made of
    characters of the class. *)
Fixpoint take_class (s : string) : string :=
  match s with
  | EmptyString => EmptyString
  | String c rest => if in_class c then String c (take_class rest) else EmptyString
  end.

(** What follows the literal [/c/] when [s] starts with it. *)
Definition after_marker (s : string) : option string :=
  match s with
  | String a (String b (String c rest)) =>
      if (Ascii.eqb a "/" && Ascii.eqb b "c" && Ascii.eqb c "/")%bool
      then Some rest else None
  | _ => None
  end.

(** The regular expression tried at the start of [s]: the capture group on
    success.  [+] asks for one character of the class at least. *)
Definition match_here (s : string) : option string :=
  match after_marker s with
  | Some rest =>
      let group := take_class rest in
      if Js.truthy group then Some group else None
  | None => None
  end.

(** [String.prototype.match] with this expression (no [g] flag): the start
    positions are tried from the left, the first success wins; [match[1]]
    on success, [None] for the [null] of no match. *)
Fixpoint url_match (s : string) : option string :=
  match match_here s, s with
  | Some group, _ => Some group
  | None, String _ rest => url_match rest
  | None, EmptyString => None
  end.

(** [/c/] occurs somewhere in [s]. *)
Fixpoint has_marker (s : string) : bool :=
  match after_marker s, s with
  | Some _, _ => true
  | None, String _ rest => has_marker rest
  | None, EmptyString => false
  end.

(** The [/c/] that follows [pre] in [pre ++ "/c/" ++ seg] is the first one of
    the URL: none starts inside [pre]. *)
Definition first_marker (pre : string) : Prop :=
  has_marker (pre ++ "/c") = false.

(** Every character of [s] is of the class. *)
Fixpoint all_class (s : string) : bool :=
  match s with
  | EmptyString => true
  | String c rest => in_class c && all_class rest
  end.

(** [s] does not start with a character of the class. *)
Definition stops (s : string) : bool :=
  match s with
  | EmptyString => true
  | String c _ => negb (in_class c)
  end.

End ThreadId.

(** ** The API-key gate: [verifyApiKey] *)

Module ApiKey.

(** [process.env], for the two variables the middleware reads. *)
Record env := {
  NODE_ENV : option string;
  ERKUT_API_KEY : option string
}.

(** The request, for [req.header(name)]: [None] when the header is absent. *)
Record request := {
  header : string -> option string
}.

(** A JSON object whose members are strings, as a list of its members. *)
Definition json_object := list (string * string).

(** What [res.status(code).json(body)] sends. *)
Record response := {
  status : nat;
  body : json_object
}.

(** The middleware either hands the request on ([next()]) or answers it. *)
Inductive handled :=
| Next
| Sent (r : response).

Definition invalid_api_key : response :=
  {| status := 401; body := [("error", "invalid api key")] |}.

Definition verifyApiKey (e : env) (req : request) : handled :=
  if Js.strict_eq (NODE_ENV e) (Some "development") then Next
  else
    let clientKey := header req "ERKUT-API-KEY" in
    if (negb (Js.truthy_opt clientKey)
        || negb (Js.strict_eq clientKey (ERKUT_API_KEY e)))%bool
    then Sent invalid_api_key
    else Next.

(** A request that carries the listed headers and no other, each under the
    name it is asked for. *)
Definition request_with (headers : list (string * string)) : request :=
  {| header := fun name =>
       match find (fun h => String.eqb (fst h) name) headers with
       | Some h => Some (snd h)
       | None => None
       end |}.

End ApiKey.

(** ** The prompt flow: [promptWithOptions] *)

Module Flow.

(** *** The page *)

(** An [<article>] of the conversation, for what the flow reads of it: its
    [data-testid] attribute, [None] when the attribute is absent
    ([dataset.testid] is [undefined] then, which [page.$$eval] hands over
    as [null]), and the [innerText] of the first [div.markdown] inside it,
    when it has one. *)
Record article := {
  testid : option string;
  markdown : option string
}.

(** The articles of the document, in document order. *)
Definition document := list article.

(** The page commands of the flow whose promise may reject; timeouts are in
    milliseconds. *)
Inductive call :=
| Goto (url : string) (timeout : N)
| Click (selector : string)
| WaitForSelector (selector : string) (timeout : option N)
| EditorClick
| EditorClear
| EditorType (text : string)
| EditorPress (key : string).

(** One browser session, as the flow meets it.  [resolves] tells which
    commands resolve; the waits for the reply's container are answered from
    the documents themselves: [at_listing] is the document when the articles
    are listed, [while_waiting] the documents that follow one another while
    [waitForSelector] waits for the container (within its timeout),
    [at_poll i] the document at the poll of index [i], [location] what
    [page.url()] gives once polling is over.  [opaque_query] is what the
    page finds for a selector that the model does not read (see [query]).
    The page stays open: the queries of the flow ([$$eval], [$],
    [evaluate], [url]) answer and do not reject. *)
Record page := {
  resolves : call -> bool;
  at_listing : document;
  while_waiting : list document;
  at_poll : nat -> document;
  location : string;
  opaque_query : string -> document -> option string
}.

(** *** Selectors *)

Definition dquote : string := String (ascii_of_nat 34) EmptyString.

(** [s] without the prefix [p]. *)
Fixpoint strip_prefix (p s : string) : option string :=
  match p, s with
  | EmptyString, _ => Some s
  | String a p', String b s' => if Ascii.eqb a b then strip_prefix p' s' else None
  | String _ _, EmptyString => None
  end.

(** [s] without the suffix [suf]. *)
Fixpoint strip_suffix (suf s : string) : option string :=
  if String.eqb s suf then Some EmptyString
  else match s with
       | EmptyString => None
       | String c rest =>
           match strip_suffix suf rest with
           | Some r => Some (String c r)
           | None => None
           end
       end.

(** The characters that a CSS string between double quotes holds for
    themselves: all but the quote, the backslash that starts an escape, the
    line breaks (LF, FF, CR) that end the string badly, and NUL. *)
Definition plain_char (c : ascii) : bool :=
  let n := nat_of_ascii c in
  negb ((n =? 34) || (n =? 92) || (n =? 10) || (n =? 12) || (n =? 13)
        || (n =? 0))%nat.

Fixpoint plain (s : string) : bool :=
  match s with
  | EmptyString => true
  | String c rest => plain_char c && plain rest
  end.

(** The attribute value [v] of a selector
    [article[data-testid=<quote>v<quote>] div.markdown] in which [v] is
    [plain], so that the CSS string between the quotes denotes [v] itself.
    Any other selector is not read. *)
Definition selector_testid (selector : string) : option string :=
  match strip_prefix ("article[data-testid=" ++ dquote) selector with
  | Some rest =>
      match strip_suffix (dquote ++ "] div.markdown") rest with
      | Some v => if plain v then Some v else None
      | None => None
      end
  | None => None
  end.

(** What a selector of that shape finds in a document: the [innerText] of
    the first [div.markdown] under an article whose [data-testid] attribute
    is the selector's value; [None] for the [null] of no element. *)
Definition select (selector : string) (d : document) : option string :=
  match selector_testid selector with
  | Some v =>
      match find (fun a => match markdown a with
                           | Some _ => Js.strict_eq (testid a) (Some v)
                           | None => false
                           end) d with
      | Some a => markdown a
      | None => None
      end
  | None => None
  end.

(** [page.$(selector)] on a document of the page: [select] for the
    selectors that are read; for the others (the value between the quotes
    holds a quote, a backslash or a line break, so that the selector is
    malformed or means something else) what the page itself finds, [None]
    also where the browser refuses the selector. *)
Definition query (pg : page) (selector : string) (d : document) : option string :=
  match selector_testid selector with
  | Some _ => select selector d
  | None => opaque_query pg selector d
  end.

(** *** Runs: a trace and an outcome *)

Inductive message :=
| LoadingUrl (url : string)
| EnablingReason
| EnablingSearch
| ClearingEditor
| TypingPrompt
| WaitingForContainer
| PollingUntilStable
| Poll (number : nat) (preview : option string)
| NeverStabilized
| Cleaned (cleaned : option string)
| FailedToExtract
| CleanedResponse (cleaned : string)
| ResolvedThreadId (id : option string).

Inductive event :=
| Console (m : message)
| Command (c : call)
| WaitForTimeout (ms : N)
| ListArticles
| Query (selector : string)
| ReadUrl.

(** The error of a rejected command. *)
Inductive error :=
| Rejected (c : call).

Inductive outcome (A : Type) :=
| Returned (a : A)
| Thrown (e : error).
Arguments Returned {A} a.
Arguments Thrown {A} e.

(** An asynchronous computation, run: the events it caused, in order, and
    how it ended. *)
Definition M (A : Type) : Type := (list event * outcome A)%type.

Definition ret {A : Type} (a : A) : M A := ([], Returned a).

Definition bind {A B : Type} (m : M A) (k : A -> M B) : M B :=
  match m with
  | (t, Returned a) => let (t', r) := k a in ((t ++ t')%list, r)
  | (t, Thrown e) => (t, Thrown e)
  end.

Notation "x <- m ;; k" := (bind m (fun x => k))
  (at level 61, m at next level, right associativity).
Notation "m ;; k" := (bind m (fun _ => k))
  (at level 61, right associativity).

Definition trace {A : Type} (m : M A) : list event := fst m.
Definition value {A : Type} (m : M A) : outcome A := snd m.

Definition emit (e : event) : M unit := ([e], Returned tt).

Definition log (m : message) : M unit := emit (Console m).

(** An awaited command: the error is thrown where the page rejects it. *)
Definition await (pg : page) (c : call) : M unit :=
  if resolves pg c then ([Command c], Returned tt)
  else ([Command c], Thrown (Rejected c)).

(** Modelled from the spec: [waitForTimeout] of [utils/helpers] is not among
    the sources; it suspends the flow for the given number of milliseconds
    and resolves. *)
Definition waitForTimeout (ms : N) : M unit := emit (WaitForTimeout ms).

(** The queries of a trace, counted: one per poll. *)
Definition polls (t : list event) : nat :=
  length (filter (fun e => match e with Query _ => true | _ => false end) t).

(** The suspensions of a trace, in order. *)
Fixpoint sleeps (t : list event) : list N :=
  match t with
  | [] => []
  | WaitForTimeout ms :: rest => ms :: sleeps rest
  | _ :: rest => sleeps rest
  end.

(** The texts typed into the editor, in order. *)
Fixpoint typed (t : list event) : list string :=
  match t with
  | [] => []
  | Command (EditorType text) :: rest => text :: typed rest
  | _ :: rest => typed rest
  end.

(** *** The request and the result *)

Module Options.
Record t := {
  reason : bool;
  search : bool;
  threadId : option string
}.
End Options.

Module Result.
Record t := {
  threadId : option string;
  response : option string
}.
End Result.

(** *** Constants of the flow *)

Definition base : string := "https://chatgpt.com".

Definition promptContext : string :=
  "return the response to the below prompt excluding all the sources with links mentioned in the response anywhere. Prompt as follows: ".

(** [reason ? 600 : 300]: ten minutes of polling in Reason mode, five
    otherwise. *)
Definition POLL_LIMIT (reason : bool) : nat := if reason then 600 else 300.

(** Line 57, for [latestId] a string, [null] or the [undefined] of an
    empty list of ids. *)
Definition mdSelector (latestId : option (option string)) : string :=
  "article[data-testid=" ++ dquote ++ Js.interpolate_popped latestId ++ dquote
  ++ "] div.markdown".

Section Run.

(** [String.prototype.trim], which the page applies to the [innerText] it
    hands back. *)
Variable trim : string -> string.

(** What [HtmlToText.convert] of the package html-to-text-conv makes of a
    captured string: the plain text, or [null]. *)
Variable plain_text : string -> option string.

(** Modelled from the spec: the converter is not among the sources.  It
    passes [null] through unchanged and renders a captured string as plain
    text; it does not throw. *)
Definition convert (finalText : option string) : option string :=
  match finalText with
  | None => None
  | Some captured => plain_text captured
  end.

(** Lines 18-57: navigate, toggle the modes, clear the editor, type and
    submit, then pick the latest article.  The value is [mdSelector]. *)
Definition submit (pg : page) (options : Options.t) (prompt : string) : M string :=
  let threadId := Options.threadId options in
  let url :=
    if Js.truthy_opt threadId then base ++ "/c/" ++ Js.interpolate threadId
    else base in
  log (LoadingUrl url) ;;
  await pg (Goto url 120000%N) ;;
  (if Options.reason options
   then log EnablingReason ;; await pg (Click "button::-p-aria(Reason)")
   else ret tt) ;;
  (if Options.search options
   then log EnablingSearch ;; await pg (Click "button::-p-aria(Search)")
   else ret tt) ;;
  log ClearingEditor ;;
  await pg (WaitForSelector "#prompt-textarea" None) ;;
  await pg EditorClick ;;
  await pg EditorClear ;;
  log TypingPrompt ;;
  await pg (EditorType (promptContext ++ prompt)) ;;
  await pg (EditorPress "Enter") ;;
  log WaitingForContainer ;;
  waitForTimeout 1000%N ;;
  emit ListArticles ;;
  let ids := map testid (at_listing pg) in
  let latestId := Js.pop ids in
  ret (mdSelector latestId).

(** Line 60: [page.waitForSelector(mdSelector, { timeout: 30_000 })]
    resolves when one of the documents it sees holds a match, and rejects
    otherwise. *)
Definition waitForContainer (pg : page) (mdSelector : string) : M unit :=
  let c := WaitForSelector mdSelector (Some 30000%N) in
  if existsb (fun d => match query pg mdSelector d with
                       | Some _ => true
                       | None => false
                       end) (while_waiting pg)
  then ([Command c], Returned tt)
  else ([Command c], Thrown (Rejected c)).

(** Lines 72-75: the text read at the poll of index [i]; the empty string
    when the selector finds no element. *)
Definition sample (pg : page) (mdSelector : string) (i : nat) : string :=
  match query pg mdSelector (at_poll pg i) with
  | Some innerText => trim innerText
  | None => EmptyString
  end.

(** Lines 69-85: the [for] loop from index [i] on, with [remaining] the
    iterations left ([POLL_LIMIT - i]) and [previous] the text of the poll
    before.  The value is [(previous, finalText)] as the loop leaves them. *)
Fixpoint poll_from (pg : page) (mdSelector : string) (remaining i : nat)
    (previous : string) : M (string * option string) :=
  match remaining with
  | 0 => ret (previous, None)
  | S remaining' =>
      emit (Query mdSelector) ;;
      let text := sample pg mdSelector i in
      log (Poll (i + 1)
             (if Js.truthy text then Some (Js.slice0 50 text) else None)) ;;
      if (Js.truthy text && String.eqb text previous)%bool
      then ret (previous, Some text)
      else waitForTimeout 1000%N ;; poll_from pg mdSelector remaining' (S i) text
  end.

(** Lines 64-85: the loop from its initial state. *)
Definition poll (pg : page) (mdSelector : string) (limit : nat)
    : M (string * option string) :=
  poll_from pg mdSelector limit 0 EmptyString.

(** Lines 63-90: the loop, then the fallback on the last text. *)
Definition stabilize (pg : page) (mdSelector : string) (limit : nat)
    : M (option string) :=
  log PollingUntilStable ;;
  r <- poll pg mdSelector limit ;;
  match snd r with
  | Some text => ret (Some text)
  | None => log NeverStabilized ;; ret (Js.or_null (fst r))
  end.

(** Lines 92-110: clean the text, read the thread id off the URL, build
    the result. *)
Definition finish (pg : page) (finalText : option string) : M Result.t :=
  let cleaned := convert finalText in
  log (Cleaned cleaned) ;;
  match cleaned with
  | None => log FailedToExtract
  | Some text => log (CleanedResponse text)
  end ;;
  emit ReadUrl ;;
  let newThreadId := ThreadId.url_match (location pg) in
  log (ResolvedThreadId newThreadId) ;;
  ret {| Result.threadId := newThreadId; Result.response := cleaned |}.

Definition promptWithOptions (pg : page) (options : Options.t) (prompt : string)
    : M Result.t :=
  mdSelector <- submit pg options prompt ;;
  waitForContainer pg mdSelector ;;
  finalText <- stabilize pg mdSelector (POLL_LIMIT (Options.reason options)) ;;
  finish pg finalText.

End Run.

End Flow.

(** ** Sequences of samples *)

Module Samples.

(** What [previous] holds when the poll of index [k] compares its text: the
    empty string at the first poll, the sample before at the others. *)
Definition before (samples : nat -> string) (k : nat) : string :=
  match k with
  | 0 => EmptyString
  | S j => samples j
  end.

(** The sample of index [k] is non-empty and equals the sample before it. *)
Definition repeats (samples : nat -> string) (k : nat) : Prop :=
  1 <= k /\ samples k <> EmptyString /\ samples k = samples (k - 1).

(** The same, decided. *)
Definition repeatsb (samples : nat -> string) (k : nat) : bool :=
  match k with
  | 0 => false
  | S j => (Js.truthy (samples k) && String.eqb (samples k) (samples j))%bool
  end.

(** None of the first [n] samples repeats. *)
Definition never_repeats (samples : nat -> string) (n : nat) : Prop :=
  forall j, j < n -> ~ repeats samples j.

(** The last non-empty one of the first [n] samples; [None] when all of
    them are empty. *)
Fixpoint last_nonempty (samples : nat -> string) (n : nat) : option string :=
  match n with
  | 0 => None
  | S m => if Js.truthy (samples m) then Some (samples m)
           else last_nonempty samples m
  end.

End Samples.

(** ** Test doubles: a [trim], converters, pages *)

Module Examples.
Import Flow.

(** The white space of ASCII: tab, line feed, vertical tab, form feed,
    carriage return, space. *)
Definition is_space (c : ascii) : bool :=
  let n := nat_of_ascii c in
  (((9 <=? n) && (n <=? 13)) || (n =? 32))%nat.

Fixpoint trim_start (s : string) : string :=
  match s with
  | EmptyString => EmptyString
  | String c rest => if is_space c then trim_start rest else s
  end.

Fixpoint trim_end (s : string) : string :=
  match s with
  | EmptyString => EmptyString
  | String c rest =>
      match trim_end rest with
      | EmptyString => if is_space c then EmptyString else String c EmptyString
      | kept => String c kept
      end
  end.

(** [String.prototype.trim] on ASCII text. *)
Definition trim_ascii (s : string) : string := trim_end (trim_start s).

(** A converter that hands a captured text back as it is. *)
Definition as_is (captured : string) : option string := Some captured.


(** An article with a test id and a [div.markdown] of the given text. *)
Definition reply (id text : string) : article :=
  {| testid := Some id; markdown := Some text |}.

Definition question : article := reply "conversation-turn-1" "hi".

Definition always : call -> bool := fun _ => true.

(** A page that finds nothing for the selectors that are not read. *)
Definition nothing : string -> document -> option string := fun _ _ => None.

(** The reply streams in: nothing, then [Hello], then [Hello world], which
    stays.  The site has moved to the conversation [abc-123]. *)
Definition streaming : page :=
  {| resolves := always;
     at_listing := [question; reply "conversation-turn-2" ""];
     while_waiting := [[question; reply "conversation-turn-2" ""]];
     at_poll := fun i =>
       [question;
        reply "conversation-turn-2"
          (match i with
           | 0 => ""
           | 1 => "Hello"
           | _ => "Hello world "
           end)];
     location := "https://chatgpt.com/c/abc-123";
     opaque_query := nothing |}.

(** The reply shows [A] at the first poll; from the second poll on its
    container is gone from the document. *)
Definition vanishing : page :=
  {| resolves := always;
     at_listing := [question; reply "conversation-turn-2" ""];
     while_waiting := [[question; reply "conversation-turn-2" ""]];
     at_poll := fun i =>
       match i with
       | 0 => [question; reply "conversation-turn-2" "A"]
       | _ => [question]
       end;
     location := "https://chatgpt.com/c/abc-123";
     opaque_query := nothing |}.

(** The reply changes at every poll of a budget of three: [A], [B], [C]. *)
Definition changing : page :=
  {| resolves := always;
     at_listing := [question; reply "conversation-turn-2" ""];
     while_waiting := [[question; reply "conversation-turn-2" ""]];
     at_poll := fun i =>
       [question;
        reply "conversation-turn-2"
          (match i with
           | 0 => "A"
           | 1 => "B"
           | _ => "C"
           end)];
     location := "https://chatgpt.com/c/abc-123";
     opaque_query := nothing |}.

(** The selector of the reply in these pages. *)
Definition turn2 : string := mdSelector (Some (Some "conversation-turn-2")).

(** No article is there when the articles are listed; while the flow waits,
    one shows up whose test id is the word [undefined]. *)
Definition late_undefined : page :=
  {| resolves := always;
     at_listing := [];
     while_waiting := [[]; [reply "undefined" "hi"]];
     at_poll := fun _ => [reply "undefined" "hi"];
     location := "https://chatgpt.com/";
     opaque_query := nothing |}.

(** No article is there when the articles are listed; the articles of the
    conversation show up while the flow waits. *)
Definition late_articles : page :=
  {| resolves := always;
     at_listing := [];
     while_waiting := [[]; [question; reply "conversation-turn-2" "Hel"]];
     at_poll := fun _ => [question; reply "conversation-turn-2" "Hello"];
     location := "https://chatgpt.com/c/abc-123";
     opaque_query := nothing |}.

Definition fresh : Options.t :=
  {| Options.reason := false; Options.search := false; Options.threadId := None |}.

Definition resumed : Options.t :=
  {| Options.reason := true; Options.search := false;
     Options.threadId := Some "0123-dead" |}.

(** The environment of a deployment that enforces the key. *)
Definition production (secret : string) : ApiKey.env :=
  {| ApiKey.NODE_ENV := Some "production"; ApiKey.ERKUT_API_KEY := Some secret |}.

Definition development (secret : string) : ApiKey.env :=
  {| ApiKey.NODE_ENV := Some "development"; ApiKey.ERKUT_API_KEY := Some secret |}.

End Examples.

(** ** Straight-line scripts of awaited steps *)

Module Script.

Section Run.

Variables E A : Type.

(** [rejects e] is the error of the step [e] when its promise rejects,
    [None] when the step goes through. *)
Variable rejects : E -> option A.

(** The steps are taken in order; the first one that rejects is the last
    one taken, and its error is thrown.  The value is the steps taken and
    the error, [None] when the script ran to its end. *)
Fixpoint run (script : list E) : list E * option A :=
  match script with
  | [] => ([], None)
  | e :: rest =>
      match rejects e with
      | Some a => ([e], Some a)
      | None => let (t, r) := run rest in (e :: t, r)
      end
  end.

End Run.

Arguments run {E A} rejects script.

End Script.

(** ** The login flow: [performLoginWithBasicAuth] *)

Module Login.

(** [hay.includes(needle)]. *)
Fixpoint includes (needle hay : string) : bool :=
  (String.prefix needle hay
   || match hay with
      | EmptyString => false
      | String _ rest => includes needle rest
      end)%bool.

(** [process.env], for the two variables the module reads when it is
    loaded. *)
Record env := {
  OPENAI_EMAIL : option string;
  OPENAI_PASSWORD : option string
}.

(** The page commands of the login whose promise may reject. *)
Inductive action :=
| Goto (url : string)
| Click (selector : string)
| Fill (selector : string) (value : option string)
| WaitForSelector (selector : string).

(** What [console.warn] says. *)
Inductive notice :=
| WaitingForLoad
| ClickingLogIn
| FillingEmail
| SubmittingEmail
| FillingPassword
| SubmittingForm
| LoginComplete.

Inductive step :=
| Warn (n : notice)
| Do (a : action)
| Sleep (ms : N).

(** The page as the login meets it: where it is when the login starts, and
    which commands resolve. *)
Record page := {
  url : string;
  resolves : action -> bool
}.

Definition home : string := "https://chatgpt.com".

Definition log_in_button : string := "::-p-aria(Log in)".

Definition email_field : string :=
  "input[name=" ++ Flow.dquote ++ "email" ++ Flow.dquote ++ "]".

Definition submit_button : string :=
  "button[type=" ++ Flow.dquote ++ "submit" ++ Flow.dquote ++ "]".

Definition password_field : string :=
  "input[name=" ++ Flow.dquote ++ "password" ++ Flow.dquote ++ "]".

Definition continue_button : string := "div ::-p-aria(Continue)".

Definition prompt_textarea : string := "#prompt-textarea".

(** Lines 19-55, in program order.  [Sleep ms] is [waitForTimeout(ms)] of
    [utils/helpers], which is not among the sources: as in the prompt flow
    it suspends the login for that long and resolves.  The locators are
    built without a look at the page; only their commands can reject. *)
Definition script (e : env) (pg : page) : list step :=
  ((if includes "chatgpt.com" (url pg) then [] else [Do (Goto home)])
   ++ [Warn WaitingForLoad;
       Sleep 5000;
       Warn ClickingLogIn;
       Do (Click log_in_button);
       Sleep 5000;
       Warn FillingEmail;
       Do (Fill email_field (OPENAI_EMAIL e));
       Warn SubmittingEmail;
       Do (Click submit_button);
       Warn FillingPassword;
       Do (Fill password_field (OPENAI_PASSWORD e));
       Warn SubmittingForm;
       Do (Click continue_button);
       Sleep 5000;
       Do (WaitForSelector prompt_textarea);
       Warn LoginComplete])%list.

(** The error of a step: the rejected command. *)
Definition rejects (pg : page) (s : step) : option action :=
  match s with
  | Do a => if resolves pg a then None else Some a
  | _ => None
  end.

(** The steps taken, and the command whose rejection ended the login
    ([None] when it ran to its end). *)
Definition performLoginWithBasicAuth (e : env) (pg : page)
    : list step * option action :=
  Script.run (rejects pg) (script e pg).

(** The milliseconds of the suspensions of a run, in order. *)
Fixpoint sleeps (t : list step) : list N :=
  match t with
  | [] => []
  | Sleep ms :: rest => ms :: sleeps rest
  | _ :: rest => sleeps rest
  end.

(** The values written into fields, with their selectors, in order. *)
Fixpoint filled (t : list step) : list (string * option string) :=
  match t with
  | [] => []
  | Do (Fill selector value) :: rest => (selector, value) :: filled rest
  | _ :: rest => filled rest
  end.

End Login.

(** ** The submission as a script *)

Module Submission.
Import Flow.

(** The error of an event of the prompt flow: the rejected command. *)
Definition rejects (pg : page) (e : event) : option call :=
  match e with
  | Command c => if resolves pg c then None else Some c
  | _ => None
  end.

(** Line 22. *)
Definition url_of (threadId : option string) : string :=
  if Js.truthy_opt threadId then base ++ "/c/" ++ Js.interpolate threadId
  else base.

Definition reason_button : string := "button::-p-aria(Reason)".
Definition search_button : string := "button::-p-aria(Search)".

(** Lines 23-55 of [promptWithOptions], in program order. *)
Definition script (options : Options.t) (prompt : string) : list event :=
  ([Console (LoadingUrl (url_of (Options.threadId options)));
    Command (Goto (url_of (Options.threadId options)) 120000)]
   ++ (if Options.reason options
       then [Console EnablingReason; Command (Click reason_button)] else [])
   ++ (if Options.search options
       then [Console EnablingSearch; Command (Click search_button)] else [])
   ++ [Console ClearingEditor;
       Command (WaitForSelector "#prompt-textarea" None);
       Command EditorClick;
       Command EditorClear;
       Console TypingPrompt;
       Command (EditorType (promptContext ++ prompt));
       Command (EditorPress "Enter");
       Console WaitingForContainer;
       WaitForTimeout 1000;
       ListArticles])%list.

(** The commands that come before the typing all resolve: the navigation,
    the toggles that were asked for, the lookup of the editor, the click on
    it and its clearing. *)
Definition reaches_editor (pg : page) (options : Options.t) : bool :=
  resolves pg (Goto (url_of (Options.threadId options)) 120000)
  && (if Options.reason options then resolves pg (Click reason_button) else true)
  && (if Options.search options then resolves pg (Click search_button) else true)
  && resolves pg (WaitForSelector "#prompt-textarea" None)
  && resolves pg EditorClick
  && resolves pg EditorClear.

(** A command goes through: a wait with a timeout of its own, which is the
    wait for the container, when one of the documents it sees holds a
    match; any other command when the page resolves it. *)
Definition accepted (pg : page) (c : call) : bool :=
  match c with
  | WaitForSelector selector (Some _) =>
      existsb (fun d => match query pg selector d with
                        | Some _ => true
                        | None => false
                        end) (while_waiting pg)
  | _ => resolves pg c
  end.

(** The events that command nothing of the page and read neither the
    articles nor the location: console lines, queries, suspensions. *)
Definition passive (e : event) : Prop :=
  match e with
  | Console _ | Query _ | WaitForTimeout _ => True
  | Command _ | ListArticles | ReadUrl => False
  end.

End Submission.

(** ** Time spent suspended *)

Module Time.

(** The sum of a list of durations. *)
Definition total (durations : list N) : N := fold_right N.add 0%N durations.

End Time.

(** ** More test doubles *)

Module Doubles.

(** A login page of another site whose address mentions the host in its
    query; every command resolves. *)
Definition elsewhere : Login.page :=
  {| Login.url := "https://example.org/?next=chatgpt.com";
     Login.resolves := fun _ => true |}.

(** A blank tab on which every command resolves. *)
Definition blank_tab : Login.page :=
  {| Login.url := "about:blank"; Login.resolves := fun _ => true |}.

(** The site, on which the password field never shows up. *)
Definition no_password_field : Login.page :=
  {| Login.url := "https://chatgpt.com/";
     Login.resolves := fun a =>
       match a with
       | Login.Fill selector _ => negb (String.eqb selector Login.password_field)
       | _ => true
       end |}.

Definition credentials : Login.env :=
  {| Login.OPENAI_EMAIL := Some "me@example.org";
     Login.OPENAI_PASSWORD := Some "hunter2" |}.

(** The editor of the page rejects typing. *)
Definition read_only : Flow.page :=
  {| Flow.resolves := fun c =>
       match c with
       | Flow.EditorType _ => false
       | _ => true
       end;
     Flow.at_listing := [];
     Flow.while_waiting := [];
     Flow.at_poll := fun _ => [];
     Flow.location := "https://chatgpt.com/";
     Flow.opaque_query := Examples.nothing |}.

(** The streamed reply of [Examples.streaming], whose container leaves the
    document after the fourth poll. *)
Definition streamed_then_gone : Flow.page :=
  {| Flow.resolves := Examples.always;
     Flow.at_listing := Flow.at_listing Examples.streaming;
     Flow.while_waiting := Flow.while_waiting Examples.streaming;
     Flow.at_poll := fun i =>
       if (i <? 4)%nat then Flow.at_poll Examples.streaming i else [];
     Flow.location := "https://chatgpt.com/";
     Flow.opaque_query := Examples.nothing |}.

(** The last article listed carries no test id, though it holds a reply. *)
Definition untagged : Flow.page :=
  {| Flow.resolves := Examples.always;
     Flow.at_listing :=
       [Examples.question; {| Flow.testid := None; Flow.markdown := Some "Hello" |}];
     Flow.while_waiting :=
       [[Examples.question; {| Flow.testid := None; Flow.markdown := Some "Hello" |}]];
     Flow.at_poll := fun _ =>
       [Examples.question; {| Flow.testid := None; Flow.markdown := Some "Hello" |}];
     Flow.location := "https://chatgpt.com/c/abc-123";
     Flow.opaque_query := Examples.nothing |}.

(** The last article listed carries no test id; while the flow waits, an
    article tagged with the word [null] shows up and stays. *)
Definition null_tagged : Flow.page :=
  {| Flow.resolves := Examples.always;
     Flow.at_listing := Flow.at_listing untagged;
     Flow.while_waiting :=
       [Flow.at_listing untagged;
        (Flow.at_listing untagged ++ [Examples.reply "null" "Hi"])%list];
     Flow.at_poll := fun _ =>
       (Flow.at_listing untagged ++ [Examples.reply "null" "Hi"])%list;
     Flow.location := "https://chatgpt.com/c/abc-123";
     Flow.opaque_query := Examples.nothing |}.

(** The test id of the last article listed holds a double quote; the page
    finds nothing for the selector written around it. *)
Definition quoted : Flow.page :=
  {| Flow.resolves := Examples.always;
     Flow.at_listing :=
       [Examples.question; Examples.reply ("turn" ++ Flow.dquote ++ "2") "Hello"];
     Flow.while_waiting :=
       [[Examples.question; Examples.reply ("turn" ++ Flow.dquote ++ "2") "Hello"]];
     Flow.at_poll := fun _ =>
       [Examples.question; Examples.reply ("turn" ++ Flow.dquote ++ "2") "Hello"];
     Flow.location := "https://chatgpt.com/c/abc-123";
     Flow.opaque_query := Examples.nothing |}.

(** A deployment that enforces the key and has none configured. *)
Definition no_secret : ApiKey.env :=
  {| ApiKey.NODE_ENV := Some "production"; ApiKey.ERKUT_API_KEY := None |}.

(** A request with both modes on, resuming a thread. *)
Definition both_modes : Flow.Options.t :=
  {| Flow.Options.reason := true; Flow.Options.search := true;
     Flow.Options.threadId := Some "0123-dead" |}.

End Doubles.

(** * Facts *)

(** ** JavaScript values *)

Section JsFacts.

Lemma truthy_nonempty (s : string) : Js.truthy s = true <-> s <> EmptyString.
Proof.
  destruct s; simpl; split; intros H; try discriminate; try reflexivity.
  contradiction H; reflexivity.
Qed.

Lemma strict_eq_some (v : option string) (s : string) :
  Js.strict_eq v (Some s) = true <-> v = Some s.
Proof.
  destruct v as [x|]; simpl; [|split; discriminate].
  rewrite String.eqb_eq. split; [intros ->; reflexivity | intros H; inversion H; reflexivity].
Qed.

End JsFacts.

(** ** The thread id of a URL *)

Section ThreadIdFacts.
Import ThreadId.

Lemma take_class_all (s : string) : all_class (take_class s) = true.
Proof.
  induction s as [|c s IH]; simpl; [reflexivity|].
  destruct (in_class c) eqn:E; simpl; [rewrite E; exact IH | reflexivity].
Qed.

Lemma take_class_split (s : string) :
  exists rest, s = take_class s ++ rest /\ stops rest = true.
Proof.
  induction s as [|c s [rest [Hs Hr]]]; simpl.
  - exists EmptyString. split; reflexivity.
  - destruct (in_class c) eqn:E.
    + exists rest. split; [simpl; f_equal; exact Hs | exact Hr].
    + exists (String c s). split; [reflexivity | simpl; rewrite E; reflexivity].
Qed.

Lemma take_class_id (s : string) : all_class s = true -> take_class s = s.
Proof.
  induction s as [|c s IH]; simpl; [reflexivity|].
  intros H. apply andb_true_iff in H. destruct H as [Hc Hs].
  rewrite Hc. f_equal. apply IH. exact Hs.
Qed.

Lemma after_marker_some (s rest : string) :
  after_marker s = Some rest -> s = "/c/" ++ rest.
Proof.
  destruct s as [|a [|b [|c r]]]; simpl; try discriminate.
  destruct (Ascii.eqb a "/") eqn:Ea; simpl; try discriminate.
  destruct (Ascii.eqb b "c") eqn:Eb; simpl; try discriminate.
  destruct (Ascii.eqb c "/") eqn:Ec; simpl; try discriminate.
  apply Ascii.eqb_eq in Ea, Eb, Ec. subst. intros H. inversion H. reflexivity.
Qed.

Lemma match_here_some (s group : string) :
  match_here s = Some group ->
  exists rest, s = "/c/" ++ rest /\ group = take_class rest /\ group <> EmptyString.
Proof.
  unfold match_here. destruct (after_marker s) as [rest|] eqn:E; [|discriminate].
  destruct (Js.truthy (take_class rest)) eqn:T; [|discriminate].
  intros H. inversion H. subst group. exists rest. split; [|split].
  - apply after_marker_some. exact E.
  - reflexivity.
  - apply truthy_nonempty. exact T.
Qed.

Lemma url_match_eq (s : string) :
  url_match s =
  match match_here s with
  | Some group => Some group
  | None => match s with
            | EmptyString => None
            | String _ rest => url_match rest
            end
  end.
Proof. destruct s as [|c s]; simpl; [reflexivity|]. reflexivity. Qed.

(** A match is a maximal, non-empty run of class characters after a [/c/]. *)
Lemma url_match_some (s group : string) :
  url_match s = Some group ->
  exists pre rest,
    s = pre ++ "/c/" ++ group ++ rest /\ stops rest = true
    /\ all_class group = true /\ group <> EmptyString.
Proof.
  induction s as [|c s IH]; rewrite url_match_eq.
  - simpl. discriminate.
  - destruct (match_here (String c s)) as [g|] eqn:E.
    + intros H. inversion H. subst g.
      destruct (match_here_some _ _ E) as [r [Hs [Hg Hne]]].
      destruct (take_class_split r) as [rest [Hr Hstop]].
      exists EmptyString, rest. rewrite Hs, Hg. repeat split.
      * simpl. f_equal. f_equal. f_equal. exact Hr.
      * exact Hstop.
      * apply take_class_all.
      * rewrite <- Hg. exact Hne.
    + intros H. destruct (IH H) as [pre [rest [Hs Hrest]]].
      exists (String c pre), rest. split; [simpl; f_equal; exact Hs | exact Hrest].
Qed.

Lemma after_marker_longer (a : ascii) (p seg : string) :
  after_marker (String a (p ++ "/c")) = None ->
  after_marker (String a (p ++ "/c/" ++ seg)) = None.
Proof.
  destruct p as [|b [|c p]]; simpl; intros H;
    match goal with
    | |- (if ?cond then _ else _) = None =>
        destruct cond; [discriminate H | reflexivity]
    end.
Qed.

Lemma url_match_skip (c : ascii) (s : string) :
  match_here (String c s) = None -> url_match (String c s) = url_match s.
Proof. intros H. rewrite url_match_eq, H. reflexivity. Qed.

Lemma url_match_at_marker (seg : string) :
  url_match ("/c/" ++ seg) =
  if Js.truthy (take_class seg) then Some (take_class seg) else url_match seg.
Proof.
  change ("/c/" ++ seg) with (String "/" (String "c" (String "/" seg))).
  assert (H0 : match_here (String "/" (String "c" (String "/" seg)))
               = if Js.truthy (take_class seg) then Some (take_class seg) else None)
    by reflexivity.
  destruct (Js.truthy (take_class seg)) eqn:T.
  - rewrite url_match_eq, H0. reflexivity.
  - rewrite (url_match_skip _ _ H0).
    rewrite url_match_skip by (unfold match_here; destruct seg; reflexivity).
    apply url_match_skip.
    unfold match_here. destruct seg as [|b [|c r]]; try reflexivity.
    simpl. destruct (Ascii.eqb b "c") eqn:Eb; [|reflexivity].
    apply Ascii.eqb_eq in Eb. subst b.
    change (take_class (String "c" (String c r)))
      with (if in_class "c" then String "c" (take_class (String c r))
            else EmptyString) in T.
    assert (Hc : in_class "c" = true) by reflexivity.
    rewrite Hc in T. discriminate.
Qed.

Lemma has_marker_eq (s : string) :
  has_marker s =
  match after_marker s with
  | Some _ => true
  | None => match s with
            | EmptyString => false
            | String _ rest => has_marker rest
            end
  end.
Proof. destruct s as [|c s]; reflexivity. Qed.

Lemma url_match_first_marker (pre seg : string) :
  first_marker pre ->
  url_match (pre ++ "/c/" ++ seg) =
  if Js.truthy (take_class seg) then Some (take_class seg) else url_match seg.
Proof.
  unfold first_marker. induction pre as [|a p IH]; intros H.
  - apply url_match_at_marker.
  - change (String a p ++ "/c") with (String a (p ++ "/c")) in H.
    change (String a p ++ "/c/" ++ seg) with (String a (p ++ "/c/" ++ seg)).
    rewrite has_marker_eq in H.
    destruct (after_marker (String a (p ++ "/c"))) eqn:E; [discriminate|].
    rewrite url_match_skip; [apply IH; exact H|].
    unfold match_here. rewrite (after_marker_longer _ _ seg E). reflexivity.
Qed.

(** A thread id as the site writes it, behind the base URL: the whole of it
    is the match. *)
Lemma url_match_thread (id : string) :
  all_class id = true -> id <> EmptyString ->
  url_match (Flow.base ++ "/c/" ++ id) = Some id.
Proof.
  intros Hall Hne.
  rewrite url_match_first_marker by reflexivity.
  rewrite (take_class_id _ Hall).
  apply truthy_nonempty in Hne. rewrite Hne. reflexivity.
Qed.

(** C9, amended.  Let [/c/] first occur in the URL after [pre], and [seg] be
    what follows it.  When [seg] starts with a character of [[0-9a-f\-]], the
    thread id is the longest prefix of [seg] made of such characters;
    otherwise the search goes on in [seg], and the thread id is what a later
    [/c/] yields ([null] when none does).  A thread id is never empty, holds
    only characters of the class, and so is never a segment that holds
    another character. *)
Theorem thread_id_is_class_prefix (pre seg : string) :
  first_marker pre ->
  url_match (pre ++ "/c/" ++ seg)
  = (if Js.truthy (take_class seg) then Some (take_class seg) else url_match seg)
  /\ (exists rest, seg = take_class seg ++ rest /\ stops rest = true)
  /\ all_class (take_class seg) = true
  /\ (forall id, url_match (pre ++ "/c/" ++ seg) = Some id ->
       all_class id = true /\ id <> EmptyString)
  /\ (all_class seg = false -> url_match (pre ++ "/c/" ++ seg) <> Some seg).
Proof.
  intros Hfirst.
  assert (Hid : forall id, url_match (pre ++ "/c/" ++ seg) = Some id ->
                           all_class id = true /\ id <> EmptyString).
  { intros id H. destruct (url_match_some _ _ H) as (p & r & _ & _ & Hall & Hne).
    split; assumption. }
  split; [apply url_match_first_marker; exact Hfirst|].
  split; [apply take_class_split|].
  split; [apply take_class_all|].
  split; [exact Hid|].
  intros Hseg H. destruct (Hid _ H) as [Hall _]. congruence.
Qed.

End ThreadIdFacts.

(** ** The API-key gate *)

Section ApiKeyFacts.
Import ApiKey.

(** The key passes the test of line 125 exactly when the header is there,
    is not empty and is the secret. *)
Lemma key_accepted (clientKey secret : option string) :
  (negb (Js.truthy_opt clientKey) || negb (Js.strict_eq clientKey secret))%bool = false
  <-> exists key, key <> EmptyString /\ clientKey = Some key /\ secret = Some key.
Proof.
  rewrite orb_false_iff, !negb_false_iff. split.
  - intros [Ht He]. destruct clientKey as [key|]; [|discriminate].
    destruct secret as [s|]; [|discriminate]. simpl in *.
    apply String.eqb_eq in He. subst s. exists key.
    split; [apply truthy_nonempty; exact Ht | split; reflexivity].
  - intros (key & Hne & -> & ->). simpl. rewrite String.eqb_refl.
    split; [apply truthy_nonempty; exact Hne | reflexivity].
Qed.

(** C5, amended.  In development mode the request is handed on whatever it
    carries.  Otherwise it is handed on if and only if the header
    [ERKUT-API-KEY] is present, is not the empty string and equals the
    configured secret; every other request, an empty header included, is
    answered with status 401 and the body [{ error: invalid api key }]. *)
Theorem verifyApiKey_admission (e : env) (req : request) :
  (NODE_ENV e = Some "development" -> verifyApiKey e req = Next)
  /\ (NODE_ENV e <> Some "development" ->
      (verifyApiKey e req = Next <->
       exists key, key <> EmptyString
                   /\ header req "ERKUT-API-KEY" = Some key
                   /\ ERKUT_API_KEY e = Some key)
      /\ (verifyApiKey e req <> Next ->
          verifyApiKey e req
          = Sent {| status := 401; body := [("error", "invalid api key")] |})).
Proof.
  unfold verifyApiKey. split.
  - intros H. apply strict_eq_some in H. rewrite H. reflexivity.
  - intros H.
    destruct (Js.strict_eq (NODE_ENV e) (Some "development")) eqn:E;
      [apply strict_eq_some in E; contradiction|].
    rewrite <- key_accepted.
    destruct (negb _ || negb _)%bool; split.
    + split; discriminate.
    + reflexivity.
    + split; reflexivity.
    + intros HN. contradiction HN. reflexivity.
Qed.

End ApiKeyFacts.
(** ** Traces *)

Section TraceFacts.
Import Flow.

Lemma trace_bind {A B : Type} (m : M A) (k : A -> M B) :
  trace (bind m k) =
  (trace m ++ match value m with
              | Returned a => trace (k a)
              | Thrown _ => []
              end)%list.
Proof.
  destruct m as [t [a|e]]; unfold bind, trace, value; simpl.
  - destruct (k a); reflexivity.
  - rewrite app_nil_r. reflexivity.
Qed.

Lemma value_bind {A B : Type} (m : M A) (k : A -> M B) :
  value (bind m k) =
  match value m with
  | Returned a => value (k a)
  | Thrown e => Thrown e
  end.
Proof.
  destruct m as [t [a|e]]; unfold bind, value; simpl; [|reflexivity].
  destruct (k a); reflexivity.
Qed.

Lemma polls_app (t u : list event) : polls (t ++ u) = polls t + polls u.
Proof. unfold polls. rewrite filter_app, length_app. reflexivity. Qed.

Lemma sleeps_app (t u : list event) : sleeps (t ++ u) = (sleeps t ++ sleeps u)%list.
Proof.
  induction t as [|e t IH]; [reflexivity|].
  destruct e; simpl; rewrite IH; reflexivity.
Qed.

Lemma typed_app (t u : list event) : typed (t ++ u) = (typed t ++ typed u)%list.
Proof.
  induction t as [|e t IH]; [reflexivity|].
  destruct e as [| c | | | |]; simpl; try (rewrite IH; reflexivity).
  destruct c; simpl; rewrite IH; reflexivity.
Qed.

End TraceFacts.

(** ** The polling loop *)

Section LoopFacts.
Import Flow Samples.

Variable trim : string -> string.
Variable pg : page.
Variable mdSelector : string.

Local Abbreviation samples := (sample trim pg mdSelector).

(** [previous] at the poll of index [k], for a loop entered at index [i]
    with [previous] there. *)
Let kept (i : nat) (previous : string) (k : nat) : string :=
  if (k =? i)%nat then previous else samples (k - 1).

(** The test of line 79. *)
Let stable (previous text : string) : bool :=
  (Js.truthy text && String.eqb text previous)%bool.

(** The events of the loop: queries, poll lines and suspensions of one
    second. *)
Let loop_event (e : event) : Prop :=
  match e with
  | Query _ | Console (Poll _ _) => True
  | WaitForTimeout ms => ms = 1000%N
  | _ => False
  end.

Lemma poll_from_events (remaining : nat) :
  forall i previous,
    Forall loop_event (trace (poll_from trim pg mdSelector remaining i previous)).
Proof.
  induction remaining as [|r IH]; intros i previous; [constructor|].
  cbn [poll_from]. rewrite !trace_bind. cbn [emit log trace value fst snd].
  constructor; [exact I|]. constructor; [exact I|].
  destruct (Js.truthy _ && _)%bool; [constructor|].
  rewrite trace_bind. cbn [waitForTimeout emit trace value fst snd].
  constructor; [reflexivity|]. apply IH.
Qed.

(** The loop entered at index [i]: either it breaks at the first index
    whose text passes the test, or it runs [remaining] iterations. *)
Lemma poll_from_spec (remaining : nat) :
  forall i previous,
    let run := poll_from trim pg mdSelector remaining i previous in
    (exists k,
        i <= k < i + remaining
        /\ (forall j, i <= j < k -> stable (kept i previous j) (samples j) = false)
        /\ stable (kept i previous k) (samples k) = true
        /\ value run = Returned (kept i previous k, Some (samples k))
        /\ polls (trace run) = S (k - i)
        /\ sleeps (trace run) = repeat 1000%N (k - i))
    \/ ((forall j, i <= j < i + remaining ->
                   stable (kept i previous j) (samples j) = false)
        /\ value run = Returned (kept i previous (i + remaining), None)
        /\ polls (trace run) = remaining
        /\ sleeps (trace run) = repeat 1000%N remaining).
Proof.
  induction remaining as [|r IH]; intros i previous run.
  - right. subst run. split; [intros j Hj; lia|]. split; [|split; reflexivity].
    unfold kept. rewrite Nat.add_0_r, Nat.eqb_refl. reflexivity.
  - subst run. cbn [poll_from].
    rewrite !value_bind, !trace_bind, !polls_app, !sleeps_app.
    cbn [emit log trace value fst snd].
    fold (stable previous (samples i)).
    destruct (stable previous (samples i)) eqn:E.
    + left. exists i. split; [lia|]. split; [intros j Hj; lia|].
      unfold kept at 1 2. rewrite Nat.eqb_refl. split; [exact E|].
      rewrite Nat.sub_diag. repeat split; reflexivity.
    + rewrite value_bind, trace_bind, !polls_app, !sleeps_app.
      cbn [waitForTimeout emit trace value fst snd].
      assert (K : forall k, S i <= k -> kept (S i) (samples i) k = kept i previous k).
      { intros k Hk. unfold kept.
        destruct (Nat.eqb_spec k (S i)) as [->|Hne].
        - destruct (Nat.eqb_spec (S i) i); [lia|].
          f_equal. lia.
        - destruct (Nat.eqb_spec k i); [lia|reflexivity]. }
      destruct (IH (S i) (samples i))
        as [(k & Hk & Hbefore & Hat & Hv & Hp & Hs) | (Hall & Hv & Hp & Hs)].
      * left. exists k. split; [lia|]. split.
        { intros j Hj. destruct (Nat.eq_dec j i) as [->|Hne].
          - unfold kept. rewrite Nat.eqb_refl. exact E.
          - rewrite <- K by lia. apply Hbefore. lia. }
        rewrite <- !K by lia. split; [exact Hat|]. split; [exact Hv|].
        rewrite Hp, Hs. split; [cbn; lia|].
        replace (k - i) with (S (k - S i)) by lia. reflexivity.
      * right. split.
        { intros j Hj. destruct (Nat.eq_dec j i) as [->|Hne].
          - unfold kept. rewrite Nat.eqb_refl. exact E.
          - rewrite <- K by lia. apply Hall. lia. }
        replace (i + S r) with (S i + r) by lia.
        rewrite <- K by lia. split; [exact Hv|].
        rewrite Hp, Hs. split; reflexivity.
Qed.

Lemma stable_repeats (k : nat) :
  stable (kept 0 EmptyString k) (samples k) = true <-> repeats samples k.
Proof.
  unfold stable, kept, repeats. rewrite andb_true_iff, String.eqb_eq.
  rewrite truthy_nonempty.
  destruct k as [|j]; simpl.
  - split; [intros [Hne He]; contradiction | intros [H _]; lia].
  - rewrite Nat.sub_0_r. split; [intros [? ?]; repeat split; auto; lia | tauto].
Qed.

Lemma kept_before (k : nat) : kept 0 EmptyString k = before samples k.
Proof. destruct k; simpl; [reflexivity|]. unfold kept. simpl. rewrite Nat.sub_0_r. reflexivity. Qed.

Lemma unstable_never_repeats (n : nat) :
  (forall j, 0 <= j < n -> stable (kept 0 EmptyString j) (samples j) = false)
  <-> never_repeats samples n.
Proof.
  unfold never_repeats. split; intros H j Hj.
  - rewrite <- stable_repeats. rewrite H by lia. discriminate.
  - specialize (H j (proj2 Hj)). rewrite <- stable_repeats in H.
    destruct (stable _ _); [contradiction H; reflexivity | reflexivity].
Qed.

(** The loop from its initial state: it breaks at the first repeat within
    the limit, or runs [limit] iterations. *)
Lemma poll_spec (limit : nat) :
  let run := poll trim pg mdSelector limit in
  (exists k,
      k < limit /\ never_repeats samples k /\ repeats samples k
      /\ value run = Returned (before samples k, Some (samples k))
      /\ polls (trace run) = S k
      /\ sleeps (trace run) = repeat 1000%N k)
  \/ (never_repeats samples limit
      /\ value run = Returned (before samples limit, None)
      /\ polls (trace run) = limit
      /\ sleeps (trace run) = repeat 1000%N limit).
Proof.
  unfold poll.
  destruct (poll_from_spec limit 0 EmptyString)
    as [(k & Hk & Hbefore & Hat & Hv & Hp & Hs) | (Hall & Hv & Hp & Hs)].
  - left. exists k. rewrite Nat.sub_0_r in Hp, Hs. rewrite kept_before in Hv.
    split; [lia|]. split; [apply unstable_never_repeats; exact Hbefore|].
    split; [apply stable_repeats; exact Hat|]. auto.
  - right. rewrite kept_before in Hv.
    split; [apply unstable_never_repeats; exact Hall|]. auto.
Qed.

Lemma stabilize_spec (limit : nat) :
  let run := stabilize trim pg mdSelector limit in
  (exists k,
      k < limit /\ never_repeats samples k /\ repeats samples k
      /\ value run = Returned (Some (samples k))
      /\ polls (trace run) = S k
      /\ sleeps (trace run) = repeat 1000%N k
      /\ ~ In (Console NeverStabilized) (trace run))
  \/ (never_repeats samples limit
      /\ value run = Returned (Js.or_null (before samples limit))
      /\ polls (trace run) = limit
      /\ sleeps (trace run) = repeat 1000%N limit
      /\ In (Console NeverStabilized) (trace run)).
Proof.
  intros run. subst run. unfold stabilize.
  rewrite !value_bind, !trace_bind, !polls_app, !sleeps_app.
  cbn [log emit trace value fst snd].
  pose proof (poll_from_events limit 0 EmptyString) as Hev. fold (poll trim pg mdSelector limit) in Hev.
  destruct (poll_spec limit)
    as [(k & Hk & Hbefore & Hat & Hv & Hp & Hs) | (Hall & Hv & Hp & Hs)].
  - left. exists k. rewrite Hv. cbn [fst snd ret trace value].
    rewrite app_nil_r, Hp, Hs.
    do 6 (split; [solve [auto]|]).
    intros [H|H]; [discriminate|].
    rewrite Forall_forall in Hev. apply Hev in H. exact H.
  - right. rewrite Hv. cbn [fst snd].
    rewrite value_bind, trace_bind, polls_app, sleeps_app.
    cbn [log emit ret trace value fst snd]. rewrite Hp, Hs.
    split; [exact Hall|]. split; [reflexivity|].
    split; [unfold polls; simpl; lia|].
    split; [simpl; rewrite app_nil_r; reflexivity|].
    apply in_or_app. right. apply in_or_app. right. left. reflexivity.
Qed.

Lemma loop_event_quiet (t : list event) :
  Forall loop_event t ->
  typed t = [] /\ ~ In (Console FailedToExtract) t /\ ~ In ListArticles t.
Proof.
  induction 1 as [|e t He _ (IH1 & IH2 & IH3)]; [simpl; tauto|].
  destruct e as [m| | | | |]; simpl in He; try contradiction;
    [destruct m; try contradiction| |];
    simpl; (split; [exact IH1|]); split; intros [H|H];
    try discriminate; contradiction.
Qed.

(** The stabilizer types nothing, lists no article, reports no failed
    extraction, and always returns. *)
Lemma stabilize_quiet (limit : nat) :
  let run := stabilize trim pg mdSelector limit in
  typed (trace run) = []
  /\ ~ In (Console FailedToExtract) (trace run)
  /\ ~ In ListArticles (trace run)
  /\ exists finalText, value run = Returned finalText.
Proof.
  intros run. subst run. unfold stabilize.
  rewrite !value_bind, !trace_bind. cbn [log emit trace value fst snd].
  destruct (loop_event_quiet _ (poll_from_events limit 0 EmptyString))
    as (Ht & Hf & Hl).
  fold (poll trim pg mdSelector limit) in Ht, Hf, Hl.
  assert (Hv : exists previous finalText,
             value (poll trim pg mdSelector limit) = Returned (previous, finalText)).
  { destruct (poll_spec limit) as [(k & _ & _ & _ & Hv & _) | (_ & Hv & _)];
      rewrite Hv; eauto. }
  destruct Hv as (previous & finalText & Hv). rewrite Hv. cbn [fst snd].
  destruct finalText as [text|];
    [|rewrite value_bind, trace_bind]; cbn [log emit ret trace value fst snd];
    rewrite !typed_app, Ht; cbn [typed app];
    (split; [reflexivity|]); (split; [|split; [|eauto]]);
    intros [H|H]; try discriminate;
    repeat (apply in_app_or in H; destruct H as [H|H]);
    try contradiction; simpl in H; intuition discriminate.
Qed.

(** C1.  Take a sample, of index [k], that is non-empty and equals the
    sample before it.  The loop reads it exactly when it lies within the
    budget and no earlier sample repeats; and when the loop reads it, it stops
    there: it has polled [k + 1] times, within the budget, its result is
    that sample, and it does not report a reply that never stabilized. *)
Theorem repeat_ends_polling (limit k : nat) :
  repeats samples k ->
  let run := stabilize trim pg mdSelector limit in
  (k < polls (trace run) <-> k < limit /\ never_repeats samples k)
  /\ (k < polls (trace run) ->
      polls (trace run) = S k
      /\ S k <= limit
      /\ value run = Returned (Some (samples k))
      /\ ~ In (Console NeverStabilized) (trace run)).
Proof.
  intros Hk run. subst run.
  destruct (stabilize_spec limit)
    as [(k0 & Hlt & Hnone & Hrep & Hv & Hp & _ & Hw) | (Hnone & _ & Hp & _)].
  - rewrite Hp.
    assert (Heq : k < S k0 -> k = k0).
    { intros H. destruct (Nat.eq_dec k k0) as [|Hne]; [assumption|].
      exfalso. apply (Hnone k); [lia | exact Hk]. }
    split; [split|].
    + intros H. apply Heq in H. subst k0. split; assumption.
    + intros [Hl Hn]. destruct (Nat.lt_trichotomy k k0) as [H|[H|H]]; [lia|lia|].
      exfalso. apply (Hn k0); assumption.
    + intros H. apply Heq in H. subst k0. repeat split; auto.
  - rewrite Hp. split; [split|].
    + intros H. exfalso. apply (Hnone k); assumption.
    + intros [H _]. exact H.
    + intros H. exfalso. apply (Hnone k); assumption.
Qed.

(** C2, amended.  When none of the samples within the budget repeats, the
    loop polls the whole budget, reports that the reply never stabilized,
    and returns, without throwing, the sample of the last poll when that
    one is non-empty and [null] when it is empty, whatever the samples
    before it were. *)
Theorem exhausted_budget_returns_last_sample (limit : nat) :
  1 <= limit ->
  never_repeats samples limit ->
  let run := stabilize trim pg mdSelector limit in
  value run = Returned (Js.or_null (samples (limit - 1)))
  /\ polls (trace run) = limit
  /\ In (Console NeverStabilized) (trace run).
Proof.
  intros Hpos Hnone run. subst run.
  destruct (stabilize_spec limit)
    as [(k0 & Hlt & _ & Hrep & _) | (_ & Hv & Hp & _ & Hw)].
  - exfalso. apply (Hnone k0); assumption.
  - destruct limit as [|n]; [lia|].
    replace (S n - 1) with n by lia. simpl in Hv.
    repeat split; assumption.
Qed.

(** Where the wording of C2 and the code agree: the last sample is
    non-empty, or every sample is empty. *)
Lemma last_nonempty_agrees (limit : nat) :
  samples (limit - 1) <> EmptyString
  \/ (forall j, j < limit -> samples j = EmptyString) ->
  1 <= limit ->
  Js.or_null (samples (limit - 1)) = last_nonempty samples limit.
Proof.
  intros H Hpos. destruct limit as [|n]; [lia|].
  replace (S n - 1) with n in * by lia. simpl.
  unfold Js.or_null. destruct H as [H|H].
  - apply truthy_nonempty in H. rewrite H. reflexivity.
  - rewrite (H n) by lia. simpl. clear Hpos.
    assert (G : forall m, m <= n -> last_nonempty samples m = None).
    { induction m as [|m IH]; intros Hm; [reflexivity|].
      simpl. rewrite (H m) by lia. simpl. apply IH. lia. }
    symmetry. apply G. lia.
Qed.

(** C3.  The loop takes the branch of line 79 only on a non-empty text, the
    sample of its last poll; and when every sample within the budget is the
    empty string, it polls the whole budget, leaves [finalText] at [null],
    and the result is [null]. *)
Theorem empty_sample_never_stable (limit : nat) :
  let run := poll trim pg mdSelector limit in
  (forall previous text,
      value run = Returned (previous, Some text) ->
      text <> EmptyString /\ text = samples (polls (trace run) - 1))
  /\ ((forall j, j < limit -> samples j = EmptyString) ->
      value run = Returned (EmptyString, None)
      /\ polls (trace run) = limit
      /\ value (stabilize trim pg mdSelector limit) = Returned None).
Proof.
  intros run. subst run. split.
  - intros previous text Hv.
    destruct (poll_spec limit)
      as [(k & _ & _ & Hrep & Hv' & Hp & _) | (_ & Hv' & _)];
      rewrite Hv' in Hv; [|discriminate].
    inversion Hv. subst. rewrite Hp. simpl. rewrite Nat.sub_0_r.
    split; [apply Hrep | reflexivity].
  - intros Hall.
    assert (Hb : before samples limit = EmptyString).
    { destruct limit as [|n]; [reflexivity|]. simpl. apply Hall. lia. }
    destruct (poll_spec limit)
      as [(k & Hlt & _ & Hrep & _) | (_ & Hv & Hp & _)].
    + exfalso. destruct Hrep as (_ & Hne & _). apply Hne. apply Hall. exact Hlt.
    + rewrite Hb in Hv. split; [exact Hv|]. split; [exact Hp|].
      destruct (stabilize_spec limit)
        as [(k & Hlt & _ & Hrep & _) | (_ & Hv' & _)].
      * exfalso. destruct Hrep as (_ & Hne & _). apply Hne. apply Hall. exact Hlt.
      * rewrite Hv', Hb. reflexivity.
Qed.

(** C4.  The loop may poll 600 times in Reason mode and 300 times
    otherwise; in both modes every suspension between two polls lasts 1000
    milliseconds, and there are no more of them than polls allowed. *)
Theorem reason_budget_is_larger :
  POLL_LIMIT false < POLL_LIMIT true
  /\ forall reason,
       exists n, n <= POLL_LIMIT reason
                 /\ sleeps (trace (stabilize trim pg mdSelector (POLL_LIMIT reason)))
                    = repeat 1000%N n.
Proof.
  split; [simpl; lia|]. intros reason.
  destruct (stabilize_spec (POLL_LIMIT reason))
    as [(k & Hlt & _ & _ & _ & _ & Hs & _) | (_ & _ & _ & Hs & _)].
  - exists k. split; [lia | exact Hs].
  - exists (POLL_LIMIT reason). split; [lia | exact Hs].
Qed.

End LoopFacts.

(** ** The flow as a whole *)

Section FlowFacts.
Import Flow Samples.

Variable trim : string -> string.
Variable plain_text : string -> option string.

Ltac run_step := cbn [bind trace value fst snd app].

Ltac leaf :=
  run_step; unfold polls; cbn [typed filter length In];
  repeat split; solve [reflexivity | auto | intuition congruence].

Ltac on_call pg c := destruct (resolves pg c); [run_step | solve [leaf]].

(** Before the articles are listed the flow polls nothing and types, once,
    the instruction followed by the prompt. *)
Lemma submit_spec (pg : page) (options : Options.t) (prompt : string) :
  let run := submit pg options prompt in
  polls (trace run) = 0
  /\ ~ In (Console FailedToExtract) (trace run)
  /\ match value run with
     | Returned selector =>
         selector = mdSelector (Js.pop (map testid (at_listing pg)))
         /\ typed (trace run) = [promptContext ++ prompt]
         /\ In ListArticles (trace run)
     | Thrown _ =>
         (typed (trace run) = [] \/ typed (trace run) = [promptContext ++ prompt])
         /\ ~ In ListArticles (trace run)
     end.
Proof.
  unfold submit, await, log, waitForTimeout, emit, ret. cbv zeta.
  set (url := if Js.truthy_opt _ then _ else _). clearbody url.
  set (text := promptContext ++ prompt). clearbody text.
  on_call pg (Goto url 120000%N).
  destruct (Options.reason options), (Options.search options); run_step;
    try on_call pg (Click "button::-p-aria(Reason)");
    try on_call pg (Click "button::-p-aria(Search)");
    on_call pg (WaitForSelector "#prompt-textarea" None);
    on_call pg EditorClick;
    on_call pg EditorClear;
    on_call pg (EditorType text);
    on_call pg (EditorPress "Enter");
    leaf.
Qed.

Lemma finish_spec (pg : page) (finalText : option string) :
  let run := finish plain_text pg finalText in
  value run
  = Returned {| Result.threadId := ThreadId.url_match (location pg);
                Result.response := convert plain_text finalText |}
  /\ typed (trace run) = []
  /\ polls (trace run) = 0
  /\ (In (Console FailedToExtract) (trace run)
      <-> convert plain_text finalText = None).
Proof.
  unfold finish, log, emit, ret. cbv zeta.
  destruct (convert plain_text finalText) as [text|];
    cbn [bind trace value fst snd app]; unfold polls; cbn [typed filter length In];
    repeat split; try reflexivity; try discriminate;
    intuition discriminate.
Qed.

(** The three ways a run ends: a command of the submission is rejected; the
    wait for the container is; or the flow returns what [finish] builds from
    the stabilizer's text. *)
Lemma run_cases (pg : page) (options : Options.t) (prompt : string) :
  let run := promptWithOptions trim plain_text pg options prompt in
  let submitted := submit pg options prompt in
  let limit := POLL_LIMIT (Options.reason options) in
  (exists e, value submitted = Thrown e
             /\ value run = Thrown e /\ trace run = trace submitted)
  \/ (exists selector,
        value submitted = Returned selector
        /\ (forall d, In d (while_waiting pg) -> query pg selector d = None)
        /\ value run = Thrown (Rejected (WaitForSelector selector (Some 30000%N)))
        /\ trace run
           = (trace submitted
              ++ [Command (WaitForSelector selector (Some 30000%N))])%list)
  \/ (exists selector finalText,
        value submitted = Returned selector
        /\ (exists d, In d (while_waiting pg) /\ query pg selector d <> None)
        /\ value (stabilize trim pg selector limit) = Returned finalText
        /\ value run = value (finish plain_text pg finalText)
        /\ trace run
           = (trace submitted
              ++ [Command (WaitForSelector selector (Some 30000%N))]
              ++ trace (stabilize trim pg selector limit)
              ++ trace (finish plain_text pg finalText))%list).
Proof.
  intros run submitted limit. subst run submitted limit. unfold promptWithOptions.
  rewrite value_bind, trace_bind.
  destruct (value (submit pg options prompt)) as [selector|e] eqn:Hs.
  - right. rewrite value_bind, trace_bind. unfold waitForContainer.
    destruct (existsb _ (while_waiting pg)) eqn:Hw; cbn [trace value fst snd].
    + right.
      destruct (stabilize_quiet trim pg selector (POLL_LIMIT (Options.reason options)))
        as (_ & _ & _ & finalText & Hv).
      exists selector, finalText. rewrite value_bind, trace_bind, Hv.
      split; [reflexivity|]. split.
      { apply existsb_exists in Hw. destruct Hw as (d & Hd & Hm).
        exists d. split; [exact Hd|]. destruct (query pg selector d); [discriminate|discriminate]. }
      repeat split; reflexivity.
    + left. exists selector. split; [reflexivity|]. split.
      { intros d Hd. destruct (query pg selector d) eqn:E; [|reflexivity].
        assert (Hx : existsb (fun d => match query pg selector d with
                                       | Some _ => true
                                       | None => false
                                       end) (while_waiting pg) = true).
        { apply existsb_exists. exists d. rewrite E. split; [exact Hd|reflexivity]. }
        rewrite Hw in Hx. discriminate. }
      split; reflexivity.
  - left. exists e. rewrite app_nil_r. repeat split; reflexivity.
Qed.

(** A returned response is what the converter makes of the stabilizer's
    text for the latest article, polled within the budget of the mode. *)
Lemma response_is_cleaned_text (pg : page) (options : Options.t)
    (prompt : string) (r : Result.t) :
  value (promptWithOptions trim plain_text pg options prompt) = Returned r ->
  exists finalText,
    value (stabilize trim pg (mdSelector (Js.pop (map testid (at_listing pg))))
             (POLL_LIMIT (Options.reason options)))
    = Returned finalText
    /\ Result.response r = convert plain_text finalText.
Proof.
  intros Hr.
  destruct (submit_spec pg options prompt) as (_ & _ & Hsub).
  destruct (run_cases pg options prompt)
    as [(e & _ & Hv & _) | [(sel & _ & _ & Hv & _) | (sel & ft & Hs & _ & Hst & Hv & _)]];
    rewrite Hv in Hr; try discriminate.
  rewrite Hs in Hsub. destruct Hsub as (<- & _).
  destruct (finish_spec pg ft) as (Hf & _). rewrite Hf in Hr. inversion Hr.
  exists ft. split; [exact Hst | reflexivity].
Qed.

Lemma selector_of_undefined :
  selector_testid (mdSelector None) = Some "undefined".
Proof. reflexivity. Qed.

(** A selector that is read is answered from the document alone. *)
Lemma query_read (pg : page) (selector v : string) (d : document) :
  selector_testid selector = Some v ->
  query pg selector d = select selector d.
Proof. intros H. unfold query. rewrite H. reflexivity. Qed.

(** The selector built from [undefined] finds an element only under an
    article whose test id is the word [undefined]. *)
Lemma select_undefined_none (d : document) :
  (forall a, In a d -> testid a = Some "undefined" -> markdown a = None) ->
  select (mdSelector None) d = None.
Proof.
  intros H. unfold select. rewrite selector_of_undefined.
  destruct (find _ d) as [a|] eqn:E; [|reflexivity].
  apply find_some in E. destruct E as [Hin Ha].
  destruct (markdown a) as [text|] eqn:Em; [|discriminate].
  apply strict_eq_some in Ha. rewrite (H a Hin Ha) in Em. discriminate.
Qed.

(** C6.  The thread id of a returned result is what the expression of line
    103 extracts from the location of the page after polling, whatever
    thread id the request carried; when the location is the base URL
    followed by [/c/] and a thread id, that id is returned. *)
Theorem thread_id_from_location (pg : page) (options : Options.t)
    (prompt : string) (r : Result.t) :
  value (promptWithOptions trim plain_text pg options prompt) = Returned r ->
  Result.threadId r = ThreadId.url_match (location pg)
  /\ (forall id,
        ThreadId.all_class id = true -> id <> EmptyString ->
        location pg = base ++ "/c/" ++ id ->
        Result.threadId r = Some id).
Proof.
  intros Hr.
  assert (H : Result.threadId r = ThreadId.url_match (location pg)).
  { destruct (run_cases pg options prompt)
      as [(e & _ & Hv & _) | [(sel & _ & _ & Hv & _) | (sel & ft & _ & _ & _ & Hv & _)]];
      rewrite Hv in Hr; try discriminate.
    destruct (finish_spec pg ft) as (Hf & _). rewrite Hf in Hr.
    inversion Hr. reflexivity. }
  split; [exact H|].
  intros id Hall Hne Hloc. rewrite H, Hloc. apply url_match_thread; assumption.
Qed.

(** What a submission types: the instruction followed by the prompt, once,
    when the commands before the typing resolve; nothing otherwise. *)
Lemma submit_types (pg : page) (options : Options.t) (prompt : string) :
  typed (trace (submit pg options prompt))
  = if Submission.reaches_editor pg options
    then [promptContext ++ prompt] else [].
Proof.
  unfold submit, Submission.reaches_editor, Submission.url_of,
    Submission.reason_button, Submission.search_button,
    await, log, waitForTimeout, emit, ret.
  cbv zeta.
  set (url := if Js.truthy_opt _ then _ else _). clearbody url.
  set (text := promptContext ++ prompt). clearbody text.
  destruct (resolves pg (Goto url 120000%N)); [run_step | reflexivity].
  destruct (Options.reason options), (Options.search options); run_step;
    try (destruct (resolves pg (Click "button::-p-aria(Reason)"));
         [run_step | reflexivity]);
    try (destruct (resolves pg (Click "button::-p-aria(Search)"));
         [run_step | reflexivity]);
    (destruct (resolves pg (WaitForSelector "#prompt-textarea" None));
     [run_step | reflexivity]);
    (destruct (resolves pg EditorClick); [run_step | reflexivity]);
    (destruct (resolves pg EditorClear); [run_step | reflexivity]);
    (destruct (resolves pg (EditorType text)); [run_step | reflexivity]);
    (destruct (resolves pg (EditorPress "Enter")); reflexivity).
Qed.

(** C7.  The flow types the fixed instruction followed by the prompt as it
    was given, once, as soon as the commands that come before the typing
    resolve (the navigation, the toggles asked for, the lookup of the
    editor, the click on it and its clearing), and it types nothing when
    one of them is rejected.  It never types anything else, and a run that
    returns has typed that text. *)
Theorem prompt_is_typed_verbatim (pg : page) (options : Options.t)
    (prompt : string) :
  let run := promptWithOptions trim plain_text pg options prompt in
  typed (trace run)
  = (if Submission.reaches_editor pg options
     then [promptContext ++ prompt] else [])
  /\ (forall text, In text (typed (trace run)) -> text = promptContext ++ prompt)
  /\ (forall r, value run = Returned r ->
                typed (trace run) = [promptContext ++ prompt])
  /\ promptContext
     = "return the response to the below prompt excluding all the sources with links mentioned in the response anywhere. Prompt as follows: ".
Proof.
  intros run. subst run.
  destruct (submit_spec pg options prompt) as (_ & _ & Hsub).
  assert (H : typed (trace (promptWithOptions trim plain_text pg options prompt))
              = typed (trace (submit pg options prompt))
              /\ (forall r, value (promptWithOptions trim plain_text pg options prompt)
                            = Returned r ->
                            typed (trace (submit pg options prompt))
                            = [promptContext ++ prompt])).
  { destruct (run_cases pg options prompt)
      as [(e & Hs & Hv & Ht) | [(sel & Hs & _ & Hv & Ht) | (sel & ft & Hs & _ & _ & Hv & Ht)]];
      rewrite Hs in Hsub; rewrite Hv, Ht, ?typed_app.
    - split; [reflexivity | discriminate].
    - cbn [typed]. rewrite app_nil_r. split; [reflexivity | discriminate].
    - destruct Hsub as (_ & Hty & _).
      destruct (stabilize_quiet trim pg sel (POLL_LIMIT (Options.reason options)))
        as (Hst & _).
      destruct (finish_spec pg ft) as (_ & Hfi & _).
      rewrite Hst, Hfi. cbn [typed app]. rewrite app_nil_r.
      split; [reflexivity | intros r _; exact Hty]. }
  destruct H as [H1 H2]. rewrite H1, submit_types.
  split; [reflexivity|]. split; [|split; [|reflexivity]].
  - intros text Hin.
    destruct (Submission.reaches_editor pg options); simpl in Hin.
    + destruct Hin as [<-|[]]. reflexivity.
    + contradiction.
  - intros r Hr. rewrite <- submit_types. exact (H2 r Hr).
Qed.


(** C10, amended.  When no article is there as the articles are listed, the
    latest test id is [undefined], the listing itself throws nothing, and
    the selector built from it matches no element of that document.  Unless
    an article whose test id is the word [undefined] shows up with a
    [div.markdown] while the flow waits, the run polls nothing and ends in
    a thrown error, which is the rejection of the 30-second wait whenever
    the run got as far as listing the articles. *)
Theorem no_article_fails_at_wait (pg : page) (options : Options.t)
    (prompt : string) :
  at_listing pg = [] ->
  let run := promptWithOptions trim plain_text pg options prompt in
  let selector := mdSelector None in
  Js.pop (map testid (at_listing pg)) = None
  /\ selector = "article[data-testid=" ++ dquote ++ "undefined" ++ dquote
                ++ "] div.markdown"
  /\ select selector (at_listing pg) = None
  /\ (In ListArticles (trace (submit pg options prompt)) ->
      value (submit pg options prompt) = Returned selector)
  /\ ((forall d a, In d (while_waiting pg) -> In a d ->
                   testid a = Some "undefined" -> markdown a = None) ->
      polls (trace run) = 0
      /\ exists c, value run = Thrown (Rejected c)
                   /\ (In ListArticles (trace run) ->
                       c = WaitForSelector selector (Some 30000%N))).
Proof.
  intros Hnone run selector. subst run selector.
  destruct (submit_spec pg options prompt) as (Hp & _ & Hsub).
  rewrite Hnone in *. cbn [map Js.pop] in *.
  split; [reflexivity|]. split; [reflexivity|]. split; [reflexivity|]. split.
  - intros Hin. destruct (value (submit pg options prompt)) as [sel|e].
    + destruct Hsub as (-> & _). reflexivity.
    + destruct Hsub as (_ & Hno). contradiction.
  - intros Hdom.
    destruct (run_cases pg options prompt)
      as [(e & Hs & Hv & Ht) | [(sel & Hs & _ & Hv & Ht) | (sel & ft & Hs & (d & Hd & Hm) & _)]];
      rewrite Hs in Hsub.
    + rewrite Hv, Ht. split; [exact Hp|]. destruct e as [c]. exists c.
      split; [reflexivity|]. intros Hin. destruct Hsub as (_ & Hno). contradiction.
    + destruct Hsub as (-> & _). rewrite Hv, Ht, polls_app, Hp.
      split; [reflexivity|]. eexists. split; [reflexivity|]. reflexivity.
    + exfalso. destruct Hsub as (-> & _). apply Hm.
      apply select_undefined_none. intros a Ha. apply (Hdom d a Hd Ha).
Qed.

End FlowFacts.

(** ** Runs on the test doubles *)

Section Checks.
Import Flow Samples Examples.

Lemma repeats_check (samples : nat -> string) (k : nat) :
  repeatsb samples k = true <-> repeats samples k.
Proof.
  unfold repeats. destruct k as [|j]; simpl.
  - split; [discriminate | intros [H _]; lia].
  - rewrite Nat.sub_0_r, andb_true_iff, String.eqb_eq, truthy_nonempty.
    split; [intros [? ?]; repeat split; auto; lia | tauto].
Qed.

Lemma never_repeats_check (samples : nat -> string) (n : nat) :
  forallb (fun j => negb (repeatsb samples j)) (seq 0 n) = true ->
  never_repeats samples n.
Proof.
  intros H j Hj Hrep. rewrite forallb_forall in H.
  assert (Hin : In j (seq 0 n)) by (apply in_seq; lia).
  apply H in Hin. apply repeats_check in Hrep. rewrite Hrep in Hin. discriminate.
Qed.

End Checks.

(** The scenario of the streamed reply: the fourth sample repeats the third,
    and the loop stops there with it. *)
Lemma repeat_ends_polling_witness :
  Samples.repeats (Flow.sample Examples.trim_ascii Examples.streaming Examples.turn2) 3
  /\ Flow.polls (Flow.trace (Flow.stabilize Examples.trim_ascii Examples.streaming
                               Examples.turn2 (Flow.POLL_LIMIT false))) = 4
  /\ Flow.value (Flow.stabilize Examples.trim_ascii Examples.streaming
                   Examples.turn2 (Flow.POLL_LIMIT false))
     = Flow.Returned (Some "Hello world").
Proof.
  assert (Hrep : Samples.repeats
                   (Flow.sample Examples.trim_ascii Examples.streaming Examples.turn2) 3)
    by (apply repeats_check; reflexivity).
  destruct (repeat_ends_polling Examples.trim_ascii Examples.streaming Examples.turn2
              (Flow.POLL_LIMIT false) 3 Hrep) as [Hread Hstop].
  assert (Hin : 3 < Flow.POLL_LIMIT false
                /\ Samples.never_repeats
                     (Flow.sample Examples.trim_ascii Examples.streaming Examples.turn2) 3)
    by (split; [simpl; lia | apply never_repeats_check; reflexivity]).
  apply Hread in Hin. destruct (Hstop Hin) as (Hp & _ & Hv & _).
  split; [exact Hrep|]. split; [exact Hp | exact Hv].
Defined.

(** The scenario of the budget of three: [A], [B], [C] gives [C]. *)
Lemma exhausted_budget_witness :
  1 <= 3
  /\ Samples.never_repeats
       (Flow.sample Examples.trim_ascii Examples.changing Examples.turn2) 3
  /\ Flow.value (Flow.stabilize Examples.trim_ascii Examples.changing Examples.turn2 3)
     = Flow.Returned (Some "C")
  /\ Flow.polls (Flow.trace (Flow.stabilize Examples.trim_ascii Examples.changing
                               Examples.turn2 3)) = 3.
Proof.
  assert (Hpos : 1 <= 3) by lia.
  assert (Hnone : Samples.never_repeats
                    (Flow.sample Examples.trim_ascii Examples.changing Examples.turn2) 3)
    by (apply never_repeats_check; reflexivity).
  destruct (exhausted_budget_returns_last_sample Examples.trim_ascii Examples.changing
              Examples.turn2 3 Hpos Hnone) as (Hv & Hp & _).
  split; [exact Hpos|]. split; [exact Hnone|]. split; [exact Hv | exact Hp].
Defined.

(** C2 as stated fails: the reply showed [A] once and its container then
    left the document.  No sample repeats within the budget of 300 and the
    last non-empty sample is [A], yet the result is [null]. *)
Lemma last_nonempty_sample_is_dropped :
  Samples.never_repeats
    (Flow.sample Examples.trim_ascii Examples.vanishing Examples.turn2)
    (Flow.POLL_LIMIT false)
  /\ Samples.last_nonempty
       (Flow.sample Examples.trim_ascii Examples.vanishing Examples.turn2)
       (Flow.POLL_LIMIT false) = Some "A"
  /\ Flow.value (Flow.stabilize Examples.trim_ascii Examples.vanishing Examples.turn2
                   (Flow.POLL_LIMIT false))
     = Flow.Returned None
  /\ Flow.value (Flow.promptWithOptions Examples.trim_ascii Examples.as_is
                   Examples.vanishing Examples.fresh "hi")
     = Flow.Returned {| Flow.Result.threadId := Some "abc-123";
                        Flow.Result.response := None |}.
Proof.
  split; [apply never_repeats_check; vm_compute; reflexivity|].
  split; [vm_compute; reflexivity|].
  split; vm_compute; reflexivity.
Qed.

(** C5 as stated fails: with the secret configured as the empty string, a
    request whose header is the empty string carries exactly the secret and
    is answered 401. *)
Lemma empty_key_is_refused :
  ~ (forall (e : ApiKey.env) (req : ApiKey.request),
        ApiKey.NODE_ENV e <> Some "development" ->
        (ApiKey.verifyApiKey e req = ApiKey.Next <->
         exists key, ApiKey.header req "ERKUT-API-KEY" = Some key
                     /\ ApiKey.ERKUT_API_KEY e = Some key)).
Proof.
  intros H.
  specialize (H (Examples.production EmptyString)
                (ApiKey.request_with [("ERKUT-API-KEY", EmptyString)])).
  assert (Hmode : ApiKey.NODE_ENV (Examples.production EmptyString)
                  <> Some "development") by discriminate.
  apply H in Hmode. destruct Hmode as [_ Hadmit].
  assert (Hnext : ApiKey.verifyApiKey (Examples.production EmptyString)
                    (ApiKey.request_with [("ERKUT-API-KEY", EmptyString)])
                  = ApiKey.Next)
    by (apply Hadmit; exists EmptyString; split; reflexivity).
  vm_compute in Hnext. discriminate.
Qed.

(** A request resumes the thread [0123-dead]; the page ends on the
    conversation [abc-123], and that is the thread id returned. *)
Lemma thread_id_from_location_witness :
  Flow.Options.threadId Examples.resumed = Some "0123-dead"
  /\ Flow.value (Flow.promptWithOptions Examples.trim_ascii Examples.as_is
                   Examples.streaming Examples.resumed "hi")
     = Flow.Returned {| Flow.Result.threadId := Some "abc-123";
                        Flow.Result.response := Some "Hello world" |}
  /\ Flow.Result.threadId {| Flow.Result.threadId := Some "abc-123";
                             Flow.Result.response := Some "Hello world" |}
     = ThreadId.url_match "https://chatgpt.com/c/abc-123".
Proof.
  assert (Hv : Flow.value (Flow.promptWithOptions Examples.trim_ascii Examples.as_is
                             Examples.streaming Examples.resumed "hi")
               = Flow.Returned {| Flow.Result.threadId := Some "abc-123";
                                  Flow.Result.response := Some "Hello world" |})
    by (vm_compute; reflexivity).
  split; [reflexivity|]. split; [exact Hv|].
  exact (proj1 (thread_id_from_location Examples.trim_ascii Examples.as_is
                  Examples.streaming Examples.resumed "hi" _ Hv)).
Defined.

(** On the streamed reply every command resolves: a prompt given with
    blanks around it is typed with them, behind the instruction, once. *)
Lemma prompt_is_typed_verbatim_witness :
  Submission.reaches_editor Examples.streaming Examples.fresh = true
  /\ Flow.typed (Flow.trace (Flow.promptWithOptions Examples.trim_ascii
                               Examples.as_is Examples.streaming
                               Examples.fresh "  hi  "))
     = [Flow.promptContext ++ "  hi  "].
Proof.
  split; [reflexivity|].
  exact (proj1 (prompt_is_typed_verbatim Examples.trim_ascii Examples.as_is
                  Examples.streaming Examples.fresh "  hi  ")).
Defined.


(** The segment [67ab-Xyz] yields its longest prefix of the class. *)
Lemma thread_id_is_class_prefix_witness :
  ThreadId.first_marker "https://chatgpt.com"
  /\ ThreadId.url_match "https://chatgpt.com/c/67ab-Xyz" = Some "67ab-".
Proof.
  assert (Hfirst : ThreadId.first_marker "https://chatgpt.com") by reflexivity.
  split; [exact Hfirst|].
  exact (proj1 (thread_id_is_class_prefix "https://chatgpt.com" "67ab-Xyz" Hfirst)).
Defined.

(** C9 as stated fails: no character of the class follows the first [/c/],
    yet the thread id is not [null]; the second [/c/] yields [ab]. *)
Lemma later_marker_yields_an_id :
  ~ (forall pre seg : string,
        ThreadId.first_marker pre ->
        ThreadId.url_match (pre ++ "/c/" ++ seg)
        = if Js.truthy (ThreadId.take_class seg)
          then Some (ThreadId.take_class seg) else None).
Proof.
  intros H.
  specialize (H "https://chatgpt.com" "XYZ/c/ab" eq_refl).
  vm_compute in H. discriminate.
Qed.

(** No article is listed, the articles of the conversation show up during
    the wait: the run ends in the rejection of the 30-second wait. *)
Lemma no_article_fails_at_wait_witness :
  Flow.at_listing Examples.late_articles = []
  /\ Flow.polls (Flow.trace (Flow.promptWithOptions Examples.trim_ascii Examples.as_is
                               Examples.late_articles Examples.resumed "hi")) = 0
  /\ exists c,
       Flow.value (Flow.promptWithOptions Examples.trim_ascii Examples.as_is
                     Examples.late_articles Examples.resumed "hi")
       = Flow.Thrown (Flow.Rejected c).
Proof.
  assert (Hnone : Flow.at_listing Examples.late_articles = []) by reflexivity.
  destruct (no_article_fails_at_wait Examples.trim_ascii Examples.as_is
              Examples.late_articles Examples.resumed "hi" Hnone)
    as (_ & _ & _ & _ & Hwait).
  assert (Hdom : forall d a, In d (Flow.while_waiting Examples.late_articles) ->
                             In a d -> Flow.testid a = Some "undefined" ->
                             Flow.markdown a = None).
  { intros d a [<-|[<-|[]]]; simpl; [intros []|].
    intros [<-|[<-|[]]]; simpl; discriminate. }
  destruct (Hwait Hdom) as (Hp & c & Hv & _).
  split; [exact Hnone|]. split; [exact Hp|]. exists c. exact Hv.
Defined.

(** C10 as stated fails: no article is listed, and during the wait an
    article shows up whose test id is the word [undefined].  The selector
    matches it, the wait resolves, and the flow polls that container twice
    and returns its text. *)
Lemma undefined_article_is_polled :
  Flow.at_listing Examples.late_undefined = []
  /\ Flow.value (Flow.promptWithOptions Examples.trim_ascii Examples.as_is
                   Examples.late_undefined Examples.fresh "hi")
     = Flow.Returned {| Flow.Result.threadId := None;
                        Flow.Result.response := Some "hi" |}
  /\ Flow.polls (Flow.trace (Flow.promptWithOptions Examples.trim_ascii Examples.as_is
                               Examples.late_undefined Examples.fresh "hi")) = 2.
Proof. repeat split; vm_compute; reflexivity. Qed.

(** ** Scripts *)

Section ScriptFacts.

Variables E A : Type.
Variable rejects : E -> option A.

(** A script that ran to its end took all its steps, none of which
    rejects. *)
Lemma run_completed (script : list E) :
  snd (Script.run rejects script) = None ->
  fst (Script.run rejects script) = script
  /\ forall e, In e script -> rejects e = None.
Proof.
  induction script as [|e rest IH]; simpl; [intros _; split; [reflexivity | intros e []]|].
  destruct (rejects e) as [a|] eqn:He; [discriminate|].
  destruct (Script.run rejects rest) as [t r]. simpl in *. intros Hr.
  destruct (IH Hr) as [Ht Hall]. split; [f_equal; exact Ht|].
  intros x [<-|Hx]; [exact He | apply Hall; exact Hx].
Qed.

(** A script that threw stopped at the first step that rejects: the steps
    before went through, no step after was taken. *)
Lemma run_thrown (script : list E) (a : A) :
  snd (Script.run rejects script) = Some a ->
  exists before e after,
    script = (before ++ e :: after)%list
    /\ fst (Script.run rejects script) = (before ++ [e])%list
    /\ rejects e = Some a
    /\ forall x, In x before -> rejects x = None.
Proof.
  induction script as [|e rest IH]; simpl; [discriminate|].
  destruct (rejects e) as [a'|] eqn:He.
  - simpl. intros H. inversion H. subst a'.
    exists [], e, rest.
    split; [reflexivity|]. split; [reflexivity|]. split; [exact He|].
    intros x [].
  - destruct (Script.run rejects rest) as [t r]. simpl in *. intros Hr.
    destruct (IH Hr) as (before & x & after & Hs & Ht & Hx & Hall).
    exists (e :: before), x, after. subst rest t.
    split; [reflexivity|]. split; [reflexivity|]. split; [exact Hx|].
    intros y [<-|Hy]; [exact He | apply Hall; exact Hy].
Qed.

(** A script none of whose steps rejects runs to its end. *)
Lemma run_all_resolve (script : list E) :
  (forall e, In e script -> rejects e = None) ->
  Script.run rejects script = (script, None).
Proof.
  induction script as [|e rest IH]; intros H; simpl; [reflexivity|].
  rewrite (H e) by (left; reflexivity).
  rewrite IH by (intros x Hx; apply H; right; exact Hx). reflexivity.
Qed.

Lemma run_cons_none (e : E) (rest : list E) :
  rejects e = None ->
  Script.run rejects (e :: rest)
  = (e :: fst (Script.run rejects rest), snd (Script.run rejects rest)).
Proof.
  intros H. simpl. rewrite H. destruct (Script.run rejects rest). reflexivity.
Qed.

Lemma run_cons_some (e : E) (rest : list E) (a : A) :
  rejects e = Some a -> Script.run rejects (e :: rest) = ([e], Some a).
Proof. intros H. simpl. rewrite H. reflexivity. Qed.

(** A script of which no step was taken has none, and ran to its end. *)
Lemma run_nothing_taken (script : list E) :
  fst (Script.run rejects script) = [] -> snd (Script.run rejects script) = None.
Proof.
  destruct script as [|e rest]; simpl; [reflexivity|].
  destruct (rejects e); [discriminate|].
  destruct (Script.run rejects rest). discriminate.
Qed.

(** Every step taken but the last went through; the error of the script is
    that of the last step taken. *)
Lemma run_step_status (script before : list E) (e : E) (after : list E) :
  fst (Script.run rejects script) = (before ++ e :: after)%list ->
  (forall x, In x before -> rejects x = None)
  /\ (after <> [] -> rejects e = None)
  /\ (after = [] -> snd (Script.run rejects script) = rejects e).
Proof.
  revert before. induction script as [|e0 rest IH]; intros before; simpl.
  - intros H. destruct before; discriminate.
  - destruct (rejects e0) as [a|] eqn:He0.
    + simpl. intros H. destruct before as [|y before]; simpl in H.
      * inversion H. subst e after.
        split; [intros x []|]. split; [intros Hne; contradiction Hne; reflexivity|].
        intros _. symmetry. exact He0.
      * inversion H. destruct before; discriminate.
    + pose proof (run_nothing_taken rest) as Hnone.
      destruct (Script.run rejects rest) as [t r]. simpl in *. intros H.
      destruct before as [|y before]; simpl in H.
      * inversion H. subst e0 t.
        split; [intros x []|]. split; [intros _; exact He0|].
        intros Hnil. rewrite He0. apply Hnone. exact Hnil.
      * inversion H. subst y.
        destruct (IH before H2) as (Hall & Hmid & Hlast).
        split; [|split; assumption].
        intros x [<-|Hx]; [exact He0 | apply Hall; exact Hx].
Qed.

(** The steps taken are the first steps of the script. *)
Lemma run_prefix (script : list E) :
  exists rest,
    script = (fst (Script.run rejects script) ++ rest)%list.
Proof.
  induction script as [|e rest [r IH]]; simpl; [exists []; reflexivity|].
  destruct (rejects e); [exists rest; reflexivity|].
  destruct (Script.run rejects rest) as [t o]. simpl in *.
  exists r. f_equal. exact IH.
Qed.

End ScriptFacts.

(** ** Order in lists *)

Section OrderFacts.

Variable T : Type.

(** When [x] stands once in a list, the list splits around it in one way
    only. *)
Lemma split_once (x : T) (a b a' b' : list T) :
  ~ In x a -> ~ In x b ->
  (a ++ x :: b)%list = (a' ++ x :: b')%list -> a' = a /\ b' = b.
Proof.
  revert a'. induction a as [|y a IH]; intros [|y' a'] Ha Hb H; simpl in *.
  - inversion H. split; reflexivity.
  - inversion H. subst y' b. exfalso. apply Hb. apply in_or_app. right. left. reflexivity.
  - inversion H. subst y. exfalso. apply Ha. left. reflexivity.
  - inversion H. subst y'.
    assert (Hab : a' = a /\ b' = b) by (apply IH; auto).
    destruct Hab as [-> ->]. split; reflexivity.
Qed.

(** An element of two lists laid end to end stands in the first or in the
    second. *)
Lemma split_at_step (taken tail before after : list T) (x : T) :
  (taken ++ tail)%list = (before ++ x :: after)%list ->
  (exists l, taken = (before ++ x :: l)%list /\ after = (l ++ tail)%list)
  \/ (exists l, before = (taken ++ l)%list /\ tail = (l ++ x :: after)%list).
Proof.
  revert before. induction taken as [|y taken IH]; intros before H; simpl in H.
  - right. exists before. split; [reflexivity | exact H].
  - destruct before as [|z before]; simpl in H.
    + inversion H. left. exists taken. split; reflexivity.
    + inversion H. subst z. destruct (IH before H2) as [(l & -> & ->) | (l & -> & ->)].
      * left. exists l. split; reflexivity.
      * right. exists l. split; reflexivity.
Qed.

(** What stands before a step that is not the last one taken stands before
    the last one. *)
Lemma before_last (a b t : list T) (x z : T) :
  (a ++ x :: b)%list = (t ++ [z])%list -> forall y, In y a -> In y t.
Proof.
  revert t. induction a as [|w a IH]; intros t H y Hy; [destruct Hy|].
  destruct t as [|w' t]; simpl in H.
  - inversion H. destruct a; discriminate.
  - inversion H. subst w'. destruct Hy as [<-|Hy]; [left; reflexivity|].
    right. apply (IH t); assumption.
Qed.

End OrderFacts.

(** ** The login flow *)

Section LoginFacts.
Import Login.

Lemma prefix_spec (needle hay : string) :
  String.prefix needle hay = true <-> exists post, hay = needle ++ post.
Proof.
  revert hay. induction needle as [|c needle IH]; intros hay.
  - split; [intros _; exists hay; reflexivity | destruct hay; reflexivity].
  - destruct hay as [|d hay]; simpl.
    + split; [discriminate | intros [post H]; discriminate].
    + destruct (ascii_dec c d) as [->|Hne].
      * rewrite IH. split; intros [post H]; exists post;
          [rewrite H; reflexivity | inversion H; reflexivity].
      * split; [discriminate | intros [post H]; inversion H; subst; contradiction].
Qed.

Lemma includes_eq (needle hay : string) :
  includes needle hay
  = (String.prefix needle hay
     || match hay with
        | EmptyString => false
        | String _ rest => includes needle rest
        end)%bool.
Proof. destruct hay; reflexivity. Qed.

(** [includes] finds the needle wherever it stands. *)
Lemma includes_spec (needle hay : string) :
  includes needle hay = true <-> exists pre post, hay = pre ++ needle ++ post.
Proof.
  induction hay as [|c hay IH]; rewrite includes_eq.
  - rewrite orb_false_r, prefix_spec. split.
    + intros [post H]. exists EmptyString, post. exact H.
    + intros (pre & post & H). destruct pre as [|d pre]; [|discriminate].
      exists post. exact H.
  - rewrite orb_true_iff, prefix_spec, IH. split.
    + intros [[post H] | (pre & post & H)].
      * exists EmptyString, post. exact H.
      * exists (String c pre), post. simpl. rewrite H. reflexivity.
    + intros (pre & post & H). destruct pre as [|d pre].
      * left. exists post. exact H.
      * right. inversion H. exists pre, post. reflexivity.
Qed.

(** The script after the navigation. *)
Let body (e : env) : list step :=
  [Warn WaitingForLoad;
   Sleep 5000;
   Warn ClickingLogIn;
   Do (Click log_in_button);
   Sleep 5000;
   Warn FillingEmail;
   Do (Fill email_field (OPENAI_EMAIL e));
   Warn SubmittingEmail;
   Do (Click submit_button);
   Warn FillingPassword;
   Do (Fill password_field (OPENAI_PASSWORD e));
   Warn SubmittingForm;
   Do (Click continue_button);
   Sleep 5000;
   Do (WaitForSelector prompt_textarea);
   Warn LoginComplete].

Lemma script_cases (e : env) (pg : page) :
  (includes "chatgpt.com" (url pg) = true /\ script e pg = body e)
  \/ (includes "chatgpt.com" (url pg) = false
      /\ script e pg = Do (Goto home) :: body e).
Proof.
  unfold script. destruct (includes "chatgpt.com" (url pg)); [left | right];
    split; reflexivity.
Qed.

Lemma taken_in_script (e : env) (pg : page) (s : step) :
  In s (fst (performLoginWithBasicAuth e pg)) -> In s (script e pg).
Proof.
  unfold performLoginWithBasicAuth. intros H.
  destruct (run_prefix _ _ (rejects pg) (script e pg)) as [rest Hs].
  rewrite Hs. apply in_or_app. left. exact H.
Qed.

Lemma fields_differ : email_field <> password_field.
Proof. intros H. vm_compute in H. discriminate H. Qed.

Lemma rejects_do (pg : page) (s : step) (a : action) :
  rejects pg s = Some a -> s = Do a /\ resolves pg a = false.
Proof.
  destruct s as [n|b|ms]; simpl; try discriminate.
  destruct (resolves pg b) eqn:Hb; [discriminate|].
  intros H. inversion H. subst b. split; [reflexivity | exact Hb].
Qed.

Lemma rejects_none (pg : page) (a : action) :
  rejects pg (Do a) = None <-> resolves pg a = true.
Proof. simpl. destruct (resolves pg a); split; (reflexivity || discriminate). Qed.

(** The notice of completion is the last step of the script, and stands
    there once. *)
Lemma completion_is_last (e : env) (pg : page) :
  exists steps,
    script e pg = (steps ++ [Warn LoginComplete])%list
    /\ ~ In (Warn LoginComplete) steps.
Proof.
  destruct (script_cases e pg) as [[_ Hs] | [_ Hs]]; rewrite Hs.
  - exists (removelast (body e)). split; [reflexivity|].
    simpl. intuition discriminate.
  - exists (Do (Goto home) :: removelast (body e)). split; [reflexivity|].
    simpl. intuition discriminate.
Qed.

(** A login that threw did not announce its completion. *)
Lemma rejected_login_incomplete (e : env) (pg : page) (a : action) :
  snd (performLoginWithBasicAuth e pg) = Some a ->
  ~ In (Warn LoginComplete) (fst (performLoginWithBasicAuth e pg)).
Proof.
  unfold performLoginWithBasicAuth. intros Hr Hin.
  destruct (run_thrown _ _ (rejects pg) (script e pg) a Hr)
    as (before & x & after & Hs & Ht & Hx & _).
  destruct (rejects_do _ _ _ Hx) as [-> _].
  rewrite Ht in Hin. apply in_app_or in Hin.
  destruct Hin as [Hin | [Hin | []]]; [|discriminate].
  destruct (completion_is_last e pg) as (steps & Hlast & Hnot).
  apply in_split in Hin. destruct Hin as (p & q & ->).
  rewrite Hlast in Hs. rewrite <- app_assoc in Hs. simpl in Hs.
  destruct (split_once _ (Warn LoginComplete) steps [] p (q ++ Do a :: after)
              Hnot (fun H => H) Hs) as [_ Hq].
  destruct q; discriminate.
Qed.

Lemma login_sleeps_app (t u : list step) :
  sleeps (t ++ u) = (sleeps t ++ sleeps u)%list.
Proof.
  induction t as [|s t IH]; [reflexivity|].
  destruct s; simpl; rewrite IH; reflexivity.
Qed.

Lemma total_app (t u : list N) :
  Time.total (t ++ u) = (Time.total t + Time.total u)%N.
Proof.
  induction t as [|x t IH]; simpl; [reflexivity|].
  unfold Time.total in *. simpl. rewrite IH. apply N.add_assoc.
Qed.

Lemma script_sleeps (e : env) (pg : page) :
  sleeps (script e pg) = [5000; 5000; 5000]%N.
Proof. destruct (script_cases e pg) as [[_ ->] | [_ ->]]; reflexivity. Qed.

(** X1.  The login navigates, and then as its first step and to the home
    page, exactly when the address of the page does not contain the text
    [chatgpt.com]: wherever that text stands in the address, of whatever
    host, the login navigates nowhere and goes on where it is. *)
Theorem login_navigates_unless_url_mentions_host (e : env) (pg : page) :
  let taken := fst (performLoginWithBasicAuth e pg) in
  ((exists pre post, url pg = pre ++ "chatgpt.com" ++ post) ->
   forall u, ~ In (Do (Goto u)) taken)
  /\ (~ (exists pre post, url pg = pre ++ "chatgpt.com" ++ post) ->
      exists rest, taken = Do (Goto home) :: rest
                   /\ forall u, ~ In (Do (Goto u)) rest).
Proof.
  intros taken. subst taken.
  assert (Hbody : forall u, ~ In (Do (Goto u)) (body e))
    by (intros u; simpl; intuition discriminate).
  destruct (script_cases e pg) as [[Hinc Hs] | [Hinc Hs]].
  - split.
    + intros _ u Hin. apply taken_in_script in Hin. rewrite Hs in Hin.
      exact (Hbody u Hin).
    + intros Hno. contradiction Hno. apply includes_spec. exact Hinc.
  - split.
    + intros Hyes. apply includes_spec in Hyes. rewrite Hyes in Hinc. discriminate.
    + intros _. unfold performLoginWithBasicAuth. rewrite Hs.
      change (Script.run (rejects pg) (Do (Goto home) :: body e))
        with (match rejects pg (Do (Goto home)) with
              | Some a => ([Do (Goto home)], Some a)
              | None => let (t, r) := Script.run (rejects pg) (body e) in
                        (Do (Goto home) :: t, r)
              end).
      cbn [rejects]. destruct (resolves pg (Goto home)).
      * destruct (run_prefix _ _ (rejects pg) (body e)) as [rest Hrest].
        destruct (Script.run (rejects pg) (body e)) as [t r]. cbn [fst] in *.
        exists t. split; [reflexivity|]. intros u Hin. apply (Hbody u).
        rewrite Hrest. apply in_or_app. left. exact Hin.
      * exists []. split; [reflexivity | intros u []].
Qed.

(** X2.  A login that throws throws the error of a command the page
    rejected; that command is the last step it took, every command before
    it went through, and the completion was not announced. *)
Theorem login_stops_at_rejected_command (e : env) (pg : page) (a : action) :
  snd (performLoginWithBasicAuth e pg) = Some a ->
  resolves pg a = false
  /\ (exists before,
        fst (performLoginWithBasicAuth e pg) = (before ++ [Do a])%list
        /\ forall b, In (Do b) before -> resolves pg b = true)
  /\ ~ In (Warn LoginComplete) (fst (performLoginWithBasicAuth e pg)).
Proof.
  intros Hr. split; [|split; [|apply (rejected_login_incomplete e pg a Hr)]].
  - unfold performLoginWithBasicAuth in Hr.
    destruct (run_thrown _ _ (rejects pg) (script e pg) a Hr)
      as (before & x & after & _ & _ & Hx & _).
    apply (rejects_do _ _ _ Hx).
  - unfold performLoginWithBasicAuth in *.
    destruct (run_thrown _ _ (rejects pg) (script e pg) a Hr)
      as (before & x & after & _ & Ht & Hx & Hall).
    destruct (rejects_do _ _ _ Hx) as [-> _].
    exists before. split; [exact Ht|].
    intros b Hb. apply rejects_none. apply Hall. exact Hb.
Qed.

(** X3.  The login runs to its end exactly when the page lets every command
    of its script through, and exactly then it announces its completion;
    it has then taken every step of the script. *)
Theorem login_completes_iff_commands_resolve (e : env) (pg : page) :
  let run := performLoginWithBasicAuth e pg in
  (snd run = None <-> forall a, In (Do a) (script e pg) -> resolves pg a = true)
  /\ (snd run = None <-> In (Warn LoginComplete) (fst run))
  /\ (snd run = None -> fst run = script e pg).
Proof.
  intros run. subst run.
  assert (Hdone : snd (performLoginWithBasicAuth e pg) = None ->
                  fst (performLoginWithBasicAuth e pg) = script e pg).
  { intros H. apply (run_completed _ _ (rejects pg) (script e pg) H). }
  split; [|split; [|exact Hdone]].
  - split.
    + intros H a Ha. apply rejects_none.
      apply (run_completed _ _ (rejects pg) (script e pg) H). exact Ha.
    + intros H. unfold performLoginWithBasicAuth.
      rewrite run_all_resolve; [reflexivity|].
      intros s Hs. destruct s as [n|a|ms]; try reflexivity.
      apply rejects_none. apply H. exact Hs.
  - split.
    + intros H. rewrite (Hdone H).
      destruct (completion_is_last e pg) as (steps & -> & _).
      apply in_or_app. right. left. reflexivity.
    + intros Hin.
      destruct (snd (performLoginWithBasicAuth e pg)) as [a|] eqn:Hr; [|reflexivity].
      exfalso. exact (rejected_login_incomplete e pg a Hr Hin).
Qed.

(** X4.  The password goes only into the password field and is the one of
    the environment; when the login writes it, the email of the environment
    has been written into the email field and the submit button clicked
    before. *)
Theorem password_follows_submitted_email (e : env) (pg : page)
    (before after : list step) (selector : string) (value : option string) :
  fst (performLoginWithBasicAuth e pg)
  = (before ++ Do (Fill selector value) :: after)%list ->
  (selector = email_field /\ value = OPENAI_EMAIL e)
  \/ (selector = password_field /\ value = OPENAI_PASSWORD e
      /\ In (Do (Fill email_field (OPENAI_EMAIL e))) before
      /\ In (Do (Click submit_button)) before).
Proof.
  intros Ht. unfold performLoginWithBasicAuth in Ht.
  destruct (run_prefix _ _ (rejects pg) (script e pg)) as [rest Hs].
  rewrite Ht in Hs. rewrite <- app_assoc in Hs. simpl in Hs.
  assert (Hin : In (Do (Fill selector value)) (script e pg))
    by (rewrite Hs; apply in_or_app; right; left; reflexivity).
  assert (Hwhich : (selector = email_field /\ value = OPENAI_EMAIL e)
                   \/ (selector = password_field /\ value = OPENAI_PASSWORD e)).
  { destruct (script_cases e pg) as [[_ Hb] | [_ Hb]]; rewrite Hb in Hin;
      simpl in Hin;
      repeat (destruct Hin as [Hin|Hin]; try discriminate Hin;
              try (inversion Hin; tauto)); destruct Hin. }
  destruct Hwhich as [Hemail | [-> ->]]; [left; exact Hemail | right].
  split; [reflexivity|]. split; [reflexivity|].
  assert (Hsplit : exists front back,
             script e pg
             = (front ++ Do (Fill password_field (OPENAI_PASSWORD e)) :: back)%list
             /\ ~ In (Do (Fill password_field (OPENAI_PASSWORD e))) front
             /\ ~ In (Do (Fill password_field (OPENAI_PASSWORD e))) back
             /\ In (Do (Fill email_field (OPENAI_EMAIL e))) front
             /\ In (Do (Click submit_button)) front).
  { assert (Hne : forall v w, Do (Fill email_field v) <> Do (Fill password_field w))
      by (intros v w H; inversion H; apply fields_differ; assumption).
    destruct (script_cases e pg) as [[_ Hb] | [_ Hb]]; rewrite Hb.
    - exists (firstn 10 (body e)), (skipn 11 (body e)).
      split; [reflexivity|]. simpl.
      repeat split; try tauto;
        intros H; repeat (destruct H as [H|H]; try discriminate H;
                          try (apply Hne in H; exact H)); exact H.
    - exists (Do (Goto home) :: firstn 10 (body e)), (skipn 11 (body e)).
      split; [reflexivity|]. simpl.
      repeat split; try tauto;
        intros H; repeat (destruct H as [H|H]; try discriminate H;
                          try (apply Hne in H; exact H)); exact H. }
  destruct Hsplit as (front & back & Hscript & Hf & Hb & Hemail & Hclick).
  rewrite Hscript in Hs.
  destruct (split_once _ _ _ _ _ _ Hf Hb Hs) as [-> _].
  split; assumption.
Qed.

(** X5.  Whatever the page does, the login suspends itself for 15 seconds
    at most, in suspensions of 5 seconds; a login that runs to its end has
    suspended itself for exactly 15 seconds. *)
Theorem login_suspends_fifteen_seconds (e : env) (pg : page) :
  let run := performLoginWithBasicAuth e pg in
  (Time.total (sleeps (fst run)) <= 15000)%N
  /\ Forall (fun ms => ms = 5000%N) (sleeps (fst run))
  /\ (snd run = None -> Time.total (sleeps (fst run)) = 15000%N).
Proof.
  intros run. subst run. unfold performLoginWithBasicAuth.
  destruct (run_prefix _ _ (rejects pg) (script e pg)) as [rest Hs].
  pose proof (script_sleeps e pg) as Hsl.
  rewrite Hs, login_sleeps_app in Hsl.
  assert (Htot : (Time.total (sleeps (fst (Script.run (rejects pg) (script e pg))))
                  + Time.total (sleeps rest) = 15000)%N).
  { rewrite <- total_app, Hsl. reflexivity. }
  split; [lia|]. split.
  - assert (Hall : Forall (fun ms => ms = 5000%N) [5000; 5000; 5000]%N)
      by (repeat constructor).
    rewrite <- Hsl in Hall. apply Forall_app in Hall. apply Hall.
  - intros H. apply (run_completed _ _ (rejects pg)) in H. destruct H as [H _].
    rewrite H, script_sleeps. reflexivity.
Qed.

End LoginFacts.

(** ** The submission *)

Section SubmissionFacts.
Import Flow Submission.

Ltac unroll := cbn [Script.run rejects bind trace value fst snd app].

Ltac through pg c :=
  destruct (resolves pg c); [unroll | reflexivity].

(** The submission is its script, run: it returns the selector of the
    latest article when the script runs to its end, and throws the error
    of the script otherwise. *)
Lemma submit_is_script (pg : page) (options : Options.t) (prompt : string) :
  submit pg options prompt
  = (fst (Script.run (rejects pg) (script options prompt)),
     match snd (Script.run (rejects pg) (script options prompt)) with
     | None => Returned (mdSelector (Js.pop (map testid (at_listing pg))))
     | Some c => Thrown (Rejected c)
     end).
Proof.
  unfold submit, script, await, log, waitForTimeout, emit, ret,
    reason_button, search_button.
  cbv zeta. fold (url_of (Options.threadId options)).
  set (url := url_of _). clearbody url.
  set (text := promptContext ++ prompt). clearbody text.
  unroll. through pg (Goto url 120000%N).
  destruct (Options.reason options), (Options.search options); unroll;
    try through pg (Click "button::-p-aria(Reason)");
    try through pg (Click "button::-p-aria(Search)");
    through pg (WaitForSelector "#prompt-textarea" None);
    through pg EditorClick;
    through pg EditorClear;
    through pg (EditorType text);
    through pg (EditorPress "Enter");
    reflexivity.
Qed.

End SubmissionFacts.

(** ** Runs of the prompt flow *)

Section RunFacts.
Import Flow Submission.

Variable trim : string -> string.
Variable plain_text : string -> option string.

Lemma rejects_command (pg : page) (e : event) (c : call) :
  rejects pg e = Some c -> e = Command c /\ resolves pg c = false.
Proof.
  destruct e as [m|b|ms| |q|]; simpl; try discriminate.
  destruct (resolves pg b) eqn:Hb; [discriminate|].
  intros H. inversion H. subst b. split; [reflexivity | exact Hb].
Qed.

Lemma rejects_resolved (pg : page) (c : call) :
  rejects pg (Command c) = None <-> resolves pg c = true.
Proof. simpl. destruct (resolves pg c); split; (reflexivity || discriminate). Qed.

(** The stabilizer commands nothing: it only queries, sleeps and logs. *)
Lemma stabilize_passive (pg : page) (mdSelector : string) (limit : nat) :
  Forall passive (trace (stabilize trim pg mdSelector limit)).
Proof.
  unfold stabilize. rewrite !trace_bind. cbn [log emit trace value fst snd].
  constructor; [exact I|]. apply Forall_app. split.
  - unfold poll. eapply Forall_impl; [|apply poll_from_events].
    intros [m| | | | |]; simpl; tauto.
  - destruct (value (poll trim pg mdSelector limit)) as [[previous [text|]]|e];
      cbn [fst snd].
    + constructor.
    + rewrite trace_bind. cbn [log emit ret trace value fst snd app].
      constructor; [exact I | constructor].
    + constructor.
Qed.

Lemma finish_trace (pg : page) (finalText : option string) :
  exists line,
    trace (finish plain_text pg finalText)
    = [Console (Cleaned (convert plain_text finalText)); Console line; ReadUrl;
       Console (ResolvedThreadId (ThreadId.url_match (location pg)))].
Proof.
  unfold finish, log, emit, ret. cbv zeta.
  destruct (convert plain_text finalText) as [text|];
    cbn [bind trace value fst snd app]; eexists; reflexivity.
Qed.

(** A run is the steps the submission took, followed by nothing when the
    submission threw, by the wait for the container when that one is
    rejected, and by the wait, the polling and the cleaning otherwise. *)
Lemma run_shape (pg : page) (options : Options.t) (prompt : string) :
  let run := promptWithOptions trim plain_text pg options prompt in
  let taken := Script.run (rejects pg) (script options prompt) in
  let selector := mdSelector (Js.pop (map testid (at_listing pg))) in
  let wait := WaitForSelector selector (Some 30000%N) in
  (exists c, snd taken = Some c
             /\ value run = Thrown (Rejected c)
             /\ trace run = fst taken)
  \/ (snd taken = None
      /\ (forall d, In d (while_waiting pg) -> query pg selector d = None)
      /\ value run = Thrown (Rejected wait)
      /\ trace run = (fst taken ++ [Command wait])%list)
  \/ (snd taken = None
      /\ (exists d, In d (while_waiting pg) /\ query pg selector d <> None)
      /\ exists finalText,
           value (stabilize trim pg selector
                    (POLL_LIMIT (Options.reason options)))
           = Returned finalText
           /\ value run
              = Returned {| Result.threadId := ThreadId.url_match (location pg);
                            Result.response := convert plain_text finalText |}
           /\ trace run
              = (fst taken
                 ++ Command wait
                 :: trace (stabilize trim pg selector
                             (POLL_LIMIT (Options.reason options)))
                 ++ trace (finish plain_text pg finalText))%list).
Proof.
  intros run taken selector wait. subst run taken selector wait.
  pose proof (submit_is_script pg options prompt) as Hsub.
  destruct (run_cases trim plain_text pg options prompt)
    as [(e & Hs & Hv & Ht)
       | [(sel & Hs & Hw & Hv & Ht) | (sel & ft & Hs & Hw & Hst & Hv & Ht)]];
    rewrite Hsub in Hs, Ht; cbn [value trace fst snd] in Hs, Ht;
    destruct (snd (Script.run (rejects pg) (script options prompt))) as [c|];
    try discriminate.
  - left. exists c. inversion Hs. subst e. repeat split; assumption.
  - right. left. inversion Hs. subst sel. repeat split; assumption.
  - right. right. inversion Hs. subst sel.
    split; [reflexivity|]. split; [exact Hw|]. exists ft.
    split; [exact Hst|]. split; [|exact Ht].
    rewrite Hv. apply (finish_spec trim plain_text pg ft).
Qed.

Lemma taken_in_submission (pg : page) (options : Options.t) (prompt : string)
    (e : event) :
  In e (fst (Script.run (rejects pg) (script options prompt))) ->
  In e (script options prompt).
Proof.
  intros H. destruct (run_prefix _ _ (rejects pg) (script options prompt)) as [rest Hs].
  rewrite Hs. apply in_or_app. left. exact H.
Qed.

(** The script of the submission queries nothing and does not read the
    location. *)
Lemma script_reads_nothing (options : Options.t) (prompt : string) :
  Forall (fun e => match e with
                   | Query _ | ReadUrl => False
                   | _ => True
                   end) (script options prompt).
Proof.
  unfold script.
  destruct (Options.reason options), (Options.search options);
    repeat constructor.
Qed.

(** The commands of the script: the navigation, the toggles that were asked
    for, and the work on the editor. *)
Lemma script_commands (options : Options.t) (prompt : string) (c : call) :
  In (Command c) (script options prompt) ->
  c = Goto (url_of (Options.threadId options)) 120000
  \/ (c = Click reason_button /\ Options.reason options = true)
  \/ (c = Click search_button /\ Options.search options = true)
  \/ c = WaitForSelector "#prompt-textarea" None
  \/ c = EditorClick
  \/ c = EditorClear
  \/ c = EditorType (promptContext ++ prompt)
  \/ c = EditorPress "Enter".
Proof.
  unfold script.
  destruct (Options.reason options), (Options.search options);
    cbn [app In]; intros H;
    repeat (destruct H as [H|H]; [try discriminate H; inversion H; tauto|]);
    destruct H.
Qed.

(** What follows the submission in a run commands only the wait for the
    container. *)
Lemma tail_commands (pg : page) (selector : string) (limit : nat)
    (finalText : option string) (c : call) :
  In (Command c)
     (Command (WaitForSelector selector (Some 30000%N))
      :: trace (stabilize trim pg selector limit)
      ++ trace (finish plain_text pg finalText))%list ->
  c = WaitForSelector selector (Some 30000%N).
Proof.
  intros [H|H]; [inversion H; reflexivity|]. exfalso.
  apply in_app_or in H. destruct H as [H|H].
  - pose proof (stabilize_passive pg selector limit) as Hp.
    rewrite Forall_forall in Hp. apply Hp in H. exact H.
  - destruct (finish_trace pg finalText) as [line Hf]. rewrite Hf in H.
    simpl in H. intuition discriminate.
Qed.

Lemma polls_none (t : list event) :
  Forall (fun e => match e with
                   | Query _ | ReadUrl => False
                   | _ => True
                   end) t ->
  polls t = 0 /\ ~ In ReadUrl t.
Proof.
  induction 1 as [|e t He _ [IHp IHr]]; [split; [reflexivity | intros []]|].
  split.
  - unfold polls in *. destruct e; simpl in *; try contradiction; exact IHp.
  - intros [H|H]; [subst e; contradiction | contradiction].
Qed.

Lemma taken_reads_nothing (pg : page) (options : Options.t) (prompt : string) :
  Forall (fun e => match e with
                   | Query _ | ReadUrl => False
                   | _ => True
                   end) (fst (Script.run (rejects pg) (script options prompt))).
Proof.
  destruct (run_prefix _ _ (rejects pg) (script options prompt)) as [rest Hs].
  pose proof (script_reads_nothing options prompt) as H.
  rewrite Hs in H. apply Forall_app in H. apply H.
Qed.

(** What follows the wait for the container commands nothing. *)
Lemma polling_commands_nothing (pg : page) (selector : string) (limit : nat)
    (finalText : option string) (c : call) :
  ~ In (Command c)
       (trace (stabilize trim pg selector limit)
        ++ trace (finish plain_text pg finalText))%list.
Proof.
  intros H.
  assert (Hin : In (Command c)
                   (Command (WaitForSelector selector (Some 30000%N))
                    :: trace (stabilize trim pg selector limit)
                    ++ trace (finish plain_text pg finalText))%list)
    by (right; exact H).
  apply tail_commands in Hin. subst c.
  apply in_app_or in H. destruct H as [H|H].
  - pose proof (stabilize_passive pg selector limit) as Hp.
    rewrite Forall_forall in Hp. apply Hp in H. exact H.
  - destruct (finish_trace pg finalText) as [line Hf]. rewrite Hf in H.
    simpl in H. intuition discriminate.
Qed.

(** For the commands of the submission, going through is resolving. *)
Lemma accepted_in_submission (pg : page) (options : Options.t)
    (prompt : string) (c : call) :
  In (Command c) (fst (Script.run (rejects pg) (script options prompt))) ->
  accepted pg c = resolves pg c.
Proof.
  intros H. apply taken_in_submission in H. apply script_commands in H.
  destruct H as [H|[[H _]|[[H _]|[H|[H|[H|[H|H]]]]]]]; subst c; reflexivity.
Qed.

(** The wait for the container goes through when a document it sees holds
    a match. *)
Lemma accepted_wait (pg : page) (selector : string) :
  accepted pg (WaitForSelector selector (Some 30000%N)) = true
  <-> exists d, In d (while_waiting pg) /\ query pg selector d <> None.
Proof.
  cbn [accepted]. rewrite existsb_exists. split.
  - intros (d & Hd & Hm). exists d. split; [exact Hd|].
    destruct (query pg selector d); [discriminate | discriminate].
  - intros (d & Hd & Hm). exists d. split; [exact Hd|].
    destruct (query pg selector d); [reflexivity | contradiction Hm; reflexivity].
Qed.

(** A command that the submission took: the commands before it went
    through, and so did this one unless it is the last step taken. *)
Lemma taken_status (pg : page) (options : Options.t) (prompt : string)
    (before : list event) (c : call) (after : list event) :
  let taken := Script.run (rejects pg) (script options prompt) in
  fst taken = (before ++ Command c :: after)%list ->
  (polls before = 0 /\ ~ In ReadUrl before)
  /\ (forall b, In (Command b) before -> accepted pg b = true)
  /\ (after <> [] -> accepted pg c = true)
  /\ (after = [] ->
      snd taken = if accepted pg c then None else Some c).
Proof.
  intros taken H. subst taken.
  pose proof (taken_reads_nothing pg options prompt) as Hquiet.
  pose proof (accepted_in_submission pg options prompt) as Hacc.
  rewrite H in Hquiet, Hacc.
  destruct (run_step_status _ _ (rejects pg) _ _ _ _ H) as (Hall & Hmid & Hlast).
  split; [apply polls_none; apply Forall_app in Hquiet; apply Hquiet|].
  split; [|split].
  - intros b Hb. rewrite Hacc by (apply in_or_app; left; exact Hb).
    apply rejects_resolved. apply Hall. exact Hb.
  - intros Hne. rewrite Hacc by (apply in_or_app; right; left; reflexivity).
    apply rejects_resolved. apply Hmid. exact Hne.
  - intros Hnil. rewrite (Hlast Hnil).
    rewrite Hacc by (apply in_or_app; right; left; reflexivity).
    reflexivity.
Qed.

(** X6.  Nothing follows a command that does not go through: such a
    command is the last event of its run, and the run throws its error;
    a command that goes through is followed by more.  Every command of a
    run comes before the first poll and before the location is read, and
    the commands before it went through. *)
Theorem nothing_follows_a_rejected_command (pg : page) (options : Options.t)
    (prompt : string) (before : list event) (c : call) (after : list event) :
  let run := promptWithOptions trim plain_text pg options prompt in
  trace run = (before ++ Command c :: after)%list ->
  polls before = 0
  /\ ~ In ReadUrl before
  /\ (forall b, In (Command b) before -> accepted pg b = true)
  /\ (accepted pg c = false <-> after = [])
  /\ (after = [] -> value run = Thrown (Rejected c)).
Proof.
  intros run Htrace. subst run.
  assert (Hgoes : forall l : list event,
             l <> [] -> accepted pg c = true ->
             (accepted pg c = false <-> l = [])
             /\ (l = [] ->
                 value (promptWithOptions trim plain_text pg options prompt)
                 = Thrown (Rejected c))).
  { intros l Hne Hacc. split; [split|]; intros H.
    - rewrite Hacc in H. discriminate.
    - contradiction.
    - contradiction. }
  assert (Hcat : forall (l : list event) (e : event) (l' : list event),
             (l ++ e :: l')%list <> [])
    by (intros [|? ?] ? ? ?; discriminate).
  destruct (run_shape pg options prompt)
    as [(c' & Hr & Hv & Ht)
       | [(Hr & Hw & Hv & Ht) | (Hr & Hw & ft & _ & Hv & Ht)]];
    rewrite Ht in Htrace.
  - destruct (taken_status pg options prompt before c after Htrace)
      as ((Hp & Hu) & Hbefore & Hmid & Hlast).
    split; [exact Hp|]. split; [exact Hu|]. split; [exact Hbefore|].
    destruct after as [|e after].
    + specialize (Hlast eq_refl). rewrite Hr in Hlast.
      destruct (accepted pg c); [discriminate|]. inversion Hlast. subst c'.
      split; [split; reflexivity|]. intros _. exact Hv.
    + apply Hgoes; [discriminate|]. apply Hmid. discriminate.
  - apply split_at_step in Htrace.
    destruct Htrace as [(l & Htaken & ->) | (l & -> & Htail)].
    + destruct (taken_status pg options prompt before c l Htaken)
        as ((Hp & Hu) & Hbefore & Hmid & Hlast).
      split; [exact Hp|]. split; [exact Hu|]. split; [exact Hbefore|].
      apply Hgoes; [apply Hcat|].
      destruct l as [|e l]; [|apply Hmid; discriminate].
      specialize (Hlast eq_refl). rewrite Hr in Hlast.
      destruct (accepted pg c); [reflexivity | discriminate].
    + destruct l as [|e l]; simpl in Htail;
        [|inversion Htail; destruct l; discriminate].
      inversion Htail. subst c after. rewrite app_nil_r.
      destruct (polls_none _ (taken_reads_nothing pg options prompt))
        as [Hp Hu].
      destruct (run_completed _ _ (rejects pg) _ Hr) as [_ Hall].
      split; [exact Hp|]. split; [exact Hu|]. split.
      { intros b Hb. rewrite (accepted_in_submission pg options prompt) by exact Hb.
        apply rejects_resolved. apply Hall.
        apply taken_in_submission in Hb. exact Hb. }
      split; [|intros _; exact Hv].
      split; [reflexivity|]. intros _.
      destruct (accepted pg (WaitForSelector
                               (mdSelector (Js.pop (map testid (at_listing pg))))
                               (Some 30000%N))) eqn:Hacc; [|reflexivity].
      apply accepted_wait in Hacc. destruct Hacc as (d & Hd & Hm).
      contradiction Hm. apply Hw. exact Hd.
  - apply split_at_step in Htrace.
    destruct (run_completed _ _ (rejects pg) _ Hr) as [_ Hall].
    assert (Hres : forall b,
               In (Command b) (fst (Script.run (rejects pg) (script options prompt))) ->
               accepted pg b = true).
    { intros b Hb. rewrite (accepted_in_submission pg options prompt) by exact Hb.
      apply rejects_resolved. apply Hall.
      apply taken_in_submission in Hb. exact Hb. }
    destruct Htrace as [(l & Htaken & ->) | (l & -> & Htail)].
    + destruct (taken_status pg options prompt before c l Htaken)
        as ((Hp & Hu) & Hbefore & _).
      split; [exact Hp|]. split; [exact Hu|]. split; [exact Hbefore|].
      apply Hgoes; [apply Hcat|].
      apply Hres. rewrite Htaken. apply in_or_app. right. left. reflexivity.
    + destruct l as [|e l]; simpl in Htail.
      * injection Htail as Hc Hafter. subst c after. rewrite app_nil_r.
        destruct (polls_none _ (taken_reads_nothing pg options prompt))
          as [Hp Hu].
        split; [exact Hp|]. split; [exact Hu|]. split; [exact Hres|].
        apply Hgoes; [|apply accepted_wait; exact Hw].
        destruct (finish_trace pg ft) as [line Hf]. rewrite Hf.
        apply Hcat.
      * exfalso. injection Htail as _ Hrest.
        apply (polling_commands_nothing pg
                 (mdSelector (Js.pop (map testid (at_listing pg))))
                 (POLL_LIMIT (Options.reason options)) ft c).
        rewrite Hrest. apply in_or_app. right. left. reflexivity.
Qed.


Lemma flow_sleeps_total (n : nat) :
  Time.total (repeat 1000%N n) = (1000 * N.of_nat n)%N.
Proof.
  induction n as [|n IH]; [reflexivity|].
  change (Time.total (repeat 1000%N (S n)))
    with (1000 + Time.total (repeat 1000%N n))%N.
  rewrite IH. lia.
Qed.

Lemma script_flow_sleeps (options : Options.t) (prompt : string) :
  sleeps (script options prompt) = [1000%N].
Proof.
  unfold script.
  destruct (Options.reason options), (Options.search options); reflexivity.
Qed.

Lemma taken_sleeps (pg : page) (options : Options.t) (prompt : string) :
  (Time.total (sleeps (fst (Script.run (rejects pg) (script options prompt))))
   <= 1000)%N.
Proof.
  destruct (run_prefix _ _ (rejects pg) (script options prompt)) as [rest Hs].
  pose proof (script_flow_sleeps options prompt) as H.
  rewrite Hs, sleeps_app in H.
  assert (Ht : (Time.total (sleeps (fst (Script.run (rejects pg) (script options prompt))))
                + Time.total (sleeps rest) = 1000)%N)
    by (rewrite <- total_app, H; reflexivity).
  lia.
Qed.

(** X8.  Every run starts by announcing and then commanding the navigation,
    with a timeout of 120 seconds: to the conversation of the thread id
    when the request carries a non-empty one, to the base URL when it
    carries none or the empty string.  When the navigation is rejected
    nothing else happens and its error is thrown. *)
Theorem run_starts_by_navigating (pg : page) (options : Options.t)
    (prompt : string) :
  let run := promptWithOptions trim plain_text pg options prompt in
  let url := url_of (Options.threadId options) in
  (exists rest,
      trace run = Console (LoadingUrl url) :: Command (Goto url 120000) :: rest
      /\ (resolves pg (Goto url 120000) = false ->
          rest = [] /\ value run = Thrown (Rejected (Goto url 120000))))
  /\ (forall id, Options.threadId options = Some id -> id <> EmptyString ->
                 url = base ++ "/c/" ++ id)
  /\ (Options.threadId options = None
      \/ Options.threadId options = Some EmptyString -> url = base).
Proof.
  intros run url. subst run url. split; [|split].
  - assert (Hscript : exists rest,
               script options prompt
               = Console (LoadingUrl (url_of (Options.threadId options)))
                 :: Command (Goto (url_of (Options.threadId options)) 120000)
                 :: rest) by (eexists; reflexivity).
    destruct Hscript as [more Hscript].
    pose proof (run_shape pg options prompt) as Hshape. cbv zeta in Hshape.
    rewrite Hscript in Hshape.
    rewrite (run_cons_none _ _ (rejects pg) (Console _)) in Hshape by reflexivity.
    destruct (resolves pg (Goto (url_of (Options.threadId options)) 120000)) eqn:Hgo.
    + rewrite (run_cons_none _ _ (rejects pg) (Command _)) in Hshape
        by (apply rejects_resolved; exact Hgo).
      cbn [fst snd] in Hshape.
      destruct Hshape
        as [(c' & _ & _ & Ht) | [(_ & _ & _ & Ht) | (_ & _ & ft & _ & _ & Ht)]];
        rewrite Ht; eexists; (split; [reflexivity | discriminate]).
    + rewrite (run_cons_some _ _ (rejects pg) (Command _) _
                 (Goto (url_of (Options.threadId options)) 120000)) in Hshape
        by (simpl; rewrite Hgo; reflexivity).
      cbn [fst snd] in Hshape.
      destruct Hshape
        as [(c' & Hc & Hv & Ht) | [(Hc & _) | (Hc & _)]]; try discriminate.
      inversion Hc. subst c'. rewrite Ht, Hv. exists [].
      split; [reflexivity | intros _; split; reflexivity].
  - intros id Hid Hne. unfold url_of. rewrite Hid. simpl.
    apply truthy_nonempty in Hne. rewrite Hne. reflexivity.
  - intros [H|H]; unfold url_of; rewrite H; reflexivity.
Qed.

(** X9.  Whatever the page does, a run polls at most [POLL_LIMIT] times and
    suspends itself for at most one second more than [POLL_LIMIT] seconds;
    a run that returns has polled twice at least. *)
Theorem run_is_bounded (pg : page) (options : Options.t) (prompt : string) :
  let run := promptWithOptions trim plain_text pg options prompt in
  let limit := POLL_LIMIT (Options.reason options) in
  polls (trace run) <= limit
  /\ (Time.total (sleeps (trace run)) <= 1000 * (N.of_nat limit + 1))%N
  /\ (forall r, value run = Returned r -> 2 <= polls (trace run)).
Proof.
  intros run limit. subst run limit.
  pose proof (taken_reads_nothing pg options prompt) as Hquiet.
  destruct (polls_none _ Hquiet) as [Hp0 _].
  pose proof (taken_sleeps pg options prompt) as Hs0.
  assert (Hlim : 2 <= POLL_LIMIT (Options.reason options))
    by (destruct (Options.reason options); simpl; lia).
  destruct (run_shape pg options prompt)
    as [(c' & _ & Hv & Ht) | [(_ & _ & Hv & Ht) | (_ & _ & ft & Hst & Hv & Ht)]];
    rewrite Ht, Hv;
    set (taken := fst (Script.run (rejects pg) (script options prompt))) in *.
  - rewrite Hp0. split; [lia|]. split; [lia | discriminate].
  - rewrite polls_app, sleeps_app, total_app, Hp0.
    change (polls [Command _]) with 0.
    change (Time.total (sleeps [Command _])) with 0%N.
    split; [lia|]. split; [lia | discriminate].
  - change (Command ?w :: ?t ++ ?u)%list with ([Command w] ++ t ++ u)%list.
    rewrite !polls_app, !sleeps_app, !total_app, Hp0.
    destruct (finish_spec trim plain_text pg ft) as (_ & _ & Hpf & _).
    destruct (finish_trace pg ft) as [line Hft].
    rewrite Hpf, Hft.
    change (polls [Command _]) with 0.
    change (Time.total (sleeps [Command _])) with 0%N.
    change (Time.total (sleeps [Console _; Console _; ReadUrl; Console _])) with 0%N.
    destruct (stabilize_spec trim pg
                (mdSelector (Js.pop (map testid (at_listing pg))))
                (POLL_LIMIT (Options.reason options)))
      as [(k & Hk & _ & Hrep & _ & Hp & Hsl & _) | (_ & _ & Hp & Hsl & _)];
      rewrite Hp, Hsl, flow_sleeps_total.
    + destruct Hrep as (Hk1 & _). split; [lia|]. split; [lia|].
      intros r _. lia.
    + split; [lia|]. split; [lia|]. intros r _. lia.
Qed.

(** X10.  The converter is only ever given [null] or a non-empty text that
    the loop read at one of its polls: in a run that returns, the response
    is what the converter made of such a value. *)
Theorem converter_gets_null_or_polled_text (pg : page) (options : Options.t)
    (prompt : string) (r : Result.t) :
  value (promptWithOptions trim plain_text pg options prompt) = Returned r ->
  exists finalText,
    Result.response r = convert plain_text finalText
    /\ (finalText = None
        \/ exists k text,
             k < POLL_LIMIT (Options.reason options)
             /\ finalText = Some text
             /\ text <> EmptyString
             /\ text = sample trim pg
                         (mdSelector (Js.pop (map testid (at_listing pg)))) k).
Proof.
  intros Hr.
  destruct (run_shape pg options prompt)
    as [(c' & _ & Hv & _) | [(_ & _ & Hv & _) | (_ & _ & ft & Hst & Hv & _)]];
    rewrite Hv in Hr; try discriminate.
  inversion Hr. exists ft. split; [reflexivity|].
  destruct (stabilize_spec trim pg
              (mdSelector (Js.pop (map testid (at_listing pg))))
              (POLL_LIMIT (Options.reason options)))
    as [(k & Hk & _ & Hrep & Hv' & _) | (_ & Hv' & _)];
    rewrite Hv' in Hst; inversion Hst.
  - right. exists k, (sample trim pg
                        (mdSelector (Js.pop (map testid (at_listing pg)))) k).
    destruct Hrep as (_ & Hne & _). repeat split; assumption.
  - unfold Js.or_null.
    destruct (POLL_LIMIT (Options.reason options)) as [|n] eqn:Hl;
      [left; reflexivity|].
    cbn [Samples.before].
    destruct (Js.truthy (sample trim pg
                           (mdSelector (Js.pop (map testid (at_listing pg)))) n))
      eqn:Htr; [|left; reflexivity].
    right. exists n, (sample trim pg
                        (mdSelector (Js.pop (map testid (at_listing pg)))) n).
    apply truthy_nonempty in Htr. repeat split; auto.
Qed.

(** The script types once, after the navigation and the clearing of the
    editor, before Enter is pressed and the articles are listed. *)
Lemma script_around_typing (options : Options.t) (prompt : string) :
  exists front back,
    script options prompt
    = (front ++ Command (EditorType (promptContext ++ prompt)) :: back)%list
    /\ ~ In (Command (EditorType (promptContext ++ prompt))) front
    /\ ~ In (Command (EditorType (promptContext ++ prompt))) back
    /\ In (Command (Goto (url_of (Options.threadId options)) 120000)) front
    /\ In (Command EditorClear) front
    /\ ~ In (Command (EditorPress "Enter")) front
    /\ ~ In ListArticles front.
Proof.
  unfold script.
  set (text := promptContext ++ prompt). clearbody text.
  set (url := url_of _). clearbody url.
  destruct (Options.reason options), (Options.search options); cbn [app];
    match goal with
    | |- exists front back, ?l = _ /\ _ =>
        let n := constr:(length l - 5) in
        exists (firstn n l), (skipn (S n) l)
    end;
    cbn [length Nat.sub firstn skipn app In];
    (split; [reflexivity|]);
    repeat split; try tauto;
    intros H; repeat (destruct H as [H|H]; [discriminate H|]); exact H.
Qed.

(** X11.  The prompt is typed only into an editor that was cleared, on the
    page the run navigated to, and before Enter is pressed and the articles
    are listed; what is typed is the instruction followed by the prompt,
    and every command before it went through. *)
Theorem prompt_is_typed_into_cleared_editor (pg : page) (options : Options.t)
    (prompt : string) (before after : list event) (text : string) :
  trace (promptWithOptions trim plain_text pg options prompt)
  = (before ++ Command (EditorType text) :: after)%list ->
  text = promptContext ++ prompt
  /\ In (Command (Goto (url_of (Options.threadId options)) 120000)) before
  /\ In (Command EditorClear) before
  /\ ~ In (Command (EditorPress "Enter")) before
  /\ ~ In ListArticles before
  /\ forall b, In (Command b) before -> resolves pg b = true.
Proof.
  intros Hrun.
  set (taken := Script.run (rejects pg) (script options prompt)).
  assert (Htail : exists tail,
             trace (promptWithOptions trim plain_text pg options prompt)
             = (fst taken ++ tail)%list
             /\ forall t, ~ In (Command (EditorType t)) tail).
  { destruct (run_shape pg options prompt)
      as [(c' & _ & _ & Ht) | [(_ & _ & _ & Ht) | (_ & _ & ft & _ & _ & Ht)]];
      fold taken in Ht; rewrite Ht.
    - exists []. rewrite app_nil_r. split; [reflexivity | intros t []].
    - eexists. split; [reflexivity|]. intros t [H|[]]. discriminate.
    - eexists. split; [reflexivity|]. intros t H.
      apply tail_commands in H. discriminate. }
  destruct Htail as (tail & Htrace & Hnot).
  assert (Hin : In (Command (EditorType text)) (fst taken)).
  { assert (H : In (Command (EditorType text)) (fst taken ++ tail))
      by (rewrite <- Htrace, Hrun; apply in_or_app; right; left; reflexivity).
    apply in_app_or in H. destruct H as [H|H]; [exact H|].
    exfalso. exact (Hnot text H). }
  assert (Htext : text = promptContext ++ prompt).
  { apply taken_in_submission in Hin. apply script_commands in Hin.
    destruct Hin as [H|[H|[H|[H|[H|[H|[H|H]]]]]]];
      try discriminate; try (destruct H; discriminate).
    inversion H. reflexivity. }
  subst text. split; [reflexivity|].
  destruct (script_around_typing options prompt)
    as (front & back & Hscript & Hf & Hb & Hgoto & Hclear & Henter & Hlist).
  apply in_split in Hin. destruct Hin as (p & q & Hpq).
  destruct (run_prefix _ _ (rejects pg) (script options prompt)) as [rest Hrest].
  fold taken in Hrest. rewrite Hpq, <- app_assoc in Hrest. cbn [app] in Hrest.
  rewrite Hscript in Hrest.
  destruct (split_once _ _ _ _ _ _ Hf Hb Hrest) as [-> Hback].
  assert (Hq : ~ In (Command (EditorType (promptContext ++ prompt))) (q ++ tail)).
  { intros H. apply in_app_or in H. destruct H as [H|H]; [|exact (Hnot _ H)].
    apply Hb. rewrite <- Hback. apply in_or_app. left. exact H. }
  rewrite Hrun, Hpq, <- app_assoc in Htrace. cbn [app] in Htrace.
  destruct (split_once _ _ _ _ _ _ Hf Hq (eq_sym Htrace)) as [-> _].
  repeat (split; [assumption|]).
  intros b Hb'. apply rejects_resolved.
  destruct (snd taken) as [c|] eqn:Hr.
  - destruct (run_thrown _ _ (rejects pg) _ _ Hr)
      as (t' & x & after' & _ & Ht' & _ & Hall).
    fold taken in Ht'. rewrite Hpq in Ht'.
    apply Hall. exact (before_last _ _ _ _ _ _ Ht' _ Hb').
  - destruct (run_completed _ _ (rejects pg) _ Hr) as [_ Hall].
    apply Hall. rewrite Hscript. apply in_or_app. left. exact Hb'.
Qed.

End RunFacts.

(** ** The budget of the stabilizer *)

Section BudgetFacts.
Import Flow Samples.

Variable trim : string -> string.

Lemma repeats_agree (s s' : nat -> string) (limit k : nat) :
  (forall i, i < limit -> s i = s' i) -> k < limit ->
  repeats s k -> repeats s' k.
Proof.
  intros H Hk (H1 & Hne & Heq). unfold repeats.
  rewrite <- !H by lia. repeat split; assumption.
Qed.

Lemma never_repeats_agree (s s' : nat -> string) (limit n : nat) :
  (forall i, i < limit -> s i = s' i) -> n <= limit ->
  never_repeats s n -> never_repeats s' n.
Proof.
  intros H Hn Hnone j Hj Hrep. apply (Hnone j Hj).
  apply (repeats_agree s' s limit j); [intros i Hi; symmetry; apply H; exact Hi | lia | exact Hrep].
Qed.

Lemma first_repeat_unique (s : nat -> string) (k k' : nat) :
  repeats s k -> never_repeats s k ->
  repeats s k' -> never_repeats s k' -> k = k'.
Proof.
  intros Hr Hn Hr' Hn'.
  destruct (Nat.lt_trichotomy k k') as [H|[H|H]]; [|exact H|].
  - exfalso. exact (Hn' k H Hr).
  - exfalso. exact (Hn k' H Hr').
Qed.

(** X12.  The stabilizer reads nothing beyond its budget: two pages whose
    samples agree at every poll within the budget give the same result
    after the same number of polls, however they differ afterwards. *)
Theorem polling_reads_only_the_budget (pg pg' : page)
    (mdSelector mdSelector' : string) (limit : nat) :
  (forall i, i < limit ->
             sample trim pg mdSelector i = sample trim pg' mdSelector' i) ->
  value (stabilize trim pg mdSelector limit)
  = value (stabilize trim pg' mdSelector' limit)
  /\ polls (trace (stabilize trim pg mdSelector limit))
     = polls (trace (stabilize trim pg' mdSelector' limit)).
Proof.
  intros Hagree.
  assert (Hsym : forall i, i < limit ->
                 sample trim pg' mdSelector' i = sample trim pg mdSelector i)
    by (intros i Hi; symmetry; apply Hagree; exact Hi).
  destruct (stabilize_spec trim pg mdSelector limit)
    as [(k & Hk & Hn & Hr & Hv & Hp & _) | (Hn & Hv & Hp & _)];
    destruct (stabilize_spec trim pg' mdSelector' limit)
      as [(k' & Hk' & Hn' & Hr' & Hv' & Hp' & _) | (Hn' & Hv' & Hp' & _)];
    rewrite Hv, Hv', Hp, Hp'.
  - assert (k = k').
    { apply (first_repeat_unique (sample trim pg mdSelector)); try assumption.
      - apply (repeats_agree _ _ limit k' Hsym Hk' Hr').
      - apply (never_repeats_agree _ _ limit k' Hsym); [lia | exact Hn']. }
    subst k'. rewrite (Hagree k Hk). split; reflexivity.
  - exfalso. apply (Hn' k Hk). apply (repeats_agree _ _ limit k Hagree Hk Hr).
  - exfalso. apply (Hn k' Hk'). apply (repeats_agree _ _ limit k' Hsym Hk' Hr').
  - split; [|reflexivity]. destruct limit as [|n]; [reflexivity|].
    cbn [before]. rewrite (Hagree n) by lia. reflexivity.
Qed.

(** X13.  A larger budget does not change a reply that stabilized: when
    the stabilizer stops on a repeat within a budget, it stops at the same
    poll with the same result within every larger budget, that of Reason
    mode included. *)
Theorem larger_budget_keeps_stable_result (pg : page) (mdSelector : string)
    (limit limit' : nat) :
  limit <= limit' ->
  ~ In (Console NeverStabilized) (trace (stabilize trim pg mdSelector limit)) ->
  value (stabilize trim pg mdSelector limit')
  = value (stabilize trim pg mdSelector limit)
  /\ polls (trace (stabilize trim pg mdSelector limit'))
     = polls (trace (stabilize trim pg mdSelector limit))
  /\ ~ In (Console NeverStabilized) (trace (stabilize trim pg mdSelector limit')).
Proof.
  intros Hle Hstable.
  destruct (stabilize_spec trim pg mdSelector limit)
    as [(k & Hk & Hn & Hr & Hv & Hp & _) | (_ & _ & _ & _ & Hw)];
    [|contradiction].
  destruct (stabilize_spec trim pg mdSelector limit')
    as [(k' & Hk' & Hn' & Hr' & Hv' & Hp' & _ & Hw') | (Hn' & _)].
  - assert (k' = k) by (apply (first_repeat_unique (sample trim pg mdSelector)); assumption).
    subst k'. rewrite Hv, Hv', Hp, Hp'. repeat split; auto.
  - exfalso. apply (Hn' k); [lia | exact Hr].
Qed.

End BudgetFacts.

(** ** The container that is watched *)

Section ContainerFacts.
Import Flow.

Variable trim : string -> string.
Variable plain_text : string -> option string.

Lemma pop_last {T : Type} (ids : list T) (x : T) :
  Js.pop (ids ++ [x]) = Some x.
Proof.
  induction ids as [|y ids IH]; [reflexivity|].
  change ((y :: ids) ++ [x])%list with (y :: (ids ++ [x]))%list.
  destruct (ids ++ [x])%list as [|z rest] eqn:E.
  - destruct ids; discriminate.
  - exact IH.
Qed.

Lemma length_append (a b : string) :
  String.length (a ++ b) = String.length a + String.length b.
Proof. induction a as [|c a IH]; simpl; [reflexivity | rewrite IH; reflexivity]. Qed.

Lemma strip_suffix_eq (suf s : string) :
  strip_suffix suf s
  = if String.eqb s suf then Some EmptyString
    else match s with
         | EmptyString => None
         | String c rest =>
             match strip_suffix suf rest with
             | Some r => Some (String c r)
             | None => None
             end
         end.
Proof. destruct s; reflexivity. Qed.

Lemma strip_suffix_app (suf x : string) :
  strip_suffix suf (x ++ suf) = Some x.
Proof.
  induction x as [|c x IH]; rewrite strip_suffix_eq.
  - simpl. rewrite String.eqb_refl. reflexivity.
  - assert (Hne : String.eqb (String c x ++ suf) suf = false).
    { apply String.eqb_neq. intros H.
      apply (f_equal String.length) in H. rewrite length_append in H.
      simpl in H. lia. }
    rewrite Hne. simpl. rewrite IH. reflexivity.
Qed.

(** The selector written around a plain test id is read as selecting by
    that test id; written around any other text it is not read. *)
Lemma selector_round_trip (id : string) :
  selector_testid
    ("article[data-testid=" ++ dquote ++ id ++ dquote ++ "] div.markdown")
  = if plain id then Some id else None.
Proof.
  unfold selector_testid.
  assert (Hp : strip_prefix ("article[data-testid=" ++ dquote)
                 ("article[data-testid=" ++ dquote ++ id ++ dquote ++ "] div.markdown")
               = Some (id ++ dquote ++ "] div.markdown")) by reflexivity.
  rewrite Hp, strip_suffix_app. reflexivity.
Qed.

Lemma find_first {T : Type} (f : T -> bool) (before after : list T) (b : T) :
  (forall x, In x before -> f x = false) -> f b = true ->
  find f (before ++ b :: after) = Some b.
Proof.
  induction before as [|y before IH]; intros Hb Hf; simpl.
  - rewrite Hf. reflexivity.
  - rewrite (Hb y) by (left; reflexivity).
    apply IH; [intros x Hx; apply Hb; right; exact Hx | exact Hf].
Qed.

Lemma find_among {T : Type} (f : T -> bool) (d : list T) (x : T) :
  In x d -> f x = true -> exists a, find f d = Some a.
Proof.
  induction d as [|y d IH]; intros Hin Hf; [destruct Hin|]. simpl.
  destruct (f y) eqn:Hy; [exists y; reflexivity|].
  destruct Hin as [->|Hin]; [rewrite Hf in Hy; discriminate|].
  apply IH; assumption.
Qed.

(** The test of [select] on an article. *)
Let matches (id : string) (a : article) : bool :=
  match markdown a with
  | Some _ => Js.strict_eq (testid a) (Some id)
  | None => false
  end.

Lemma matches_false (id : string) (a : article) :
  (testid a = Some id -> markdown a = None) -> matches id a = false.
Proof.
  unfold matches. intros H. destruct (markdown a) as [text|]; [|reflexivity].
  destruct (Js.strict_eq (testid a) (Some id)) eqn:E; [|reflexivity].
  apply strict_eq_some in E. apply H in E. discriminate.
Qed.

Lemma matches_true (id : string) (a : article) :
  matches id a = true <-> testid a = Some id /\ markdown a <> None.
Proof.
  unfold matches. destruct (markdown a) as [text|].
  - rewrite strict_eq_some.
    split; [intros H; split; [exact H | discriminate] | intros [H _]; exact H].
  - split; [discriminate | intros [_ H]; contradiction H; reflexivity].
Qed.

(** What the page finds for the selector written around a plain test id. *)
Lemma query_plain (pg : page) (id : string) (d : document) :
  plain id = true ->
  query pg ("article[data-testid=" ++ dquote ++ id ++ dquote ++ "] div.markdown") d
  = match find (matches id) d with
    | Some a => markdown a
    | None => None
    end.
Proof.
  intros Hplain. unfold query, select.
  rewrite selector_round_trip, Hplain. reflexivity.
Qed.

(** With a plain test id, the selector finds an element in the documents
    that hold an article with this test id and a [div.markdown], and in no
    other. *)
Lemma query_plain_some (pg : page) (id : string) (d : document) :
  plain id = true ->
  query pg ("article[data-testid=" ++ dquote ++ id ++ dquote ++ "] div.markdown") d
  <> None
  <-> exists x, In x d /\ testid x = Some id /\ markdown x <> None.
Proof.
  intros Hplain. rewrite (query_plain pg id d Hplain). split.
  - destruct (find (matches id) d) as [a|] eqn:E; [|intros H; contradiction H; reflexivity].
    intros _. apply find_some in E. destruct E as [Hin Hm].
    exists a. split; [exact Hin|]. apply matches_true. exact Hm.
  - intros (x & Hin & Hid & Hmd).
    destruct (find_among (matches id) d x Hin) as [a Ha];
      [apply matches_true; split; assumption|].
    rewrite Ha. apply find_some in Ha. destruct Ha as [_ Hm].
    apply matches_true in Hm. apply Hm.
Qed.

(** X14.  The container the flow waits for and polls is chosen by the
    [data-testid] of the last article listed, written as the template
    writes what the page hands over for it: the test id itself, or the
    word [null] when that article carries none.  When this text holds no
    quote, backslash or line break, the selector finds, in any document,
    the [div.markdown] of the first article that carries this test id and
    has one, and nothing when there is no such article. *)
Theorem latest_article_is_watched (pg : page) (older : list article)
    (latest : article) :
  at_listing pg = (older ++ [latest])%list ->
  plain (Js.interpolate_popped (Some (testid latest))) = true ->
  let id := Js.interpolate_popped (Some (testid latest)) in
  let selector := mdSelector (Js.pop (map testid (at_listing pg))) in
  selector = "article[data-testid=" ++ dquote ++ id ++ dquote ++ "] div.markdown"
  /\ (forall before b after text,
        testid b = Some id -> markdown b = Some text ->
        (forall x, In x before -> testid x = Some id -> markdown x = None) ->
        query pg selector (before ++ b :: after)%list = Some text)
  /\ (forall d,
        (forall x, In x d -> testid x = Some id -> markdown x = None) ->
        query pg selector d = None).
Proof.
  intros Hlist Hplain id selector. subst selector.
  rewrite Hlist, map_app. cbn [map]. rewrite pop_last.
  change (mdSelector (Some (testid latest)))
    with ("article[data-testid=" ++ dquote ++ id ++ dquote ++ "] div.markdown").
  split; [reflexivity|]. split.
  - intros before b after text Hid Htext Hbefore.
    rewrite (query_plain pg id _ Hplain), find_first.
    + exact Htext.
    + intros x Hx. apply matches_false. apply Hbefore. exact Hx.
    + apply matches_true. rewrite Htext. split; [exact Hid | discriminate].
  - intros d Hd. rewrite (query_plain pg id _ Hplain).
    destruct (find _ d) as [a|] eqn:E; [|reflexivity].
    apply find_some in E. destruct E as [Hin Hm].
    rewrite matches_false in Hm; [discriminate|]. apply Hd. exact Hin.
Qed.

(** X15.  When the last article listed carries no [data-testid], the page
    hands over [null] for it and the flow waits for an article whose test
    id is the word [null]: the article without a test id is not watched,
    whatever it holds.  The wait goes through exactly when an article with
    that test id and a [div.markdown] shows up while it lasts; otherwise
    the run polls nothing and throws. *)
Theorem article_without_test_id_is_not_watched (pg : page)
    (options : Options.t) (prompt : string) (older : list article)
    (latest : article) :
  at_listing pg = (older ++ [latest])%list ->
  testid latest = None ->
  let run := promptWithOptions trim plain_text pg options prompt in
  let selector :=
    "article[data-testid=" ++ dquote ++ "null" ++ dquote ++ "] div.markdown" in
  let wait := WaitForSelector selector (Some 30000%N) in
  mdSelector (Js.pop (map testid (at_listing pg))) = selector
  /\ (Submission.accepted pg wait = true
      <-> exists d x, In d (while_waiting pg) /\ In x d
                      /\ testid x = Some "null" /\ markdown x <> None)
  /\ (Submission.accepted pg wait = false ->
      polls (trace run) = 0 /\ exists c, value run = Thrown (Rejected c)).
Proof.
  intros Hlist Hid run selector wait. subst run wait.
  assert (Hsel : mdSelector (Js.pop (map testid (at_listing pg))) = selector)
    by (rewrite Hlist, map_app; cbn [map]; rewrite pop_last, Hid; reflexivity).
  assert (Hwait : Submission.accepted pg (WaitForSelector selector (Some 30000%N))
                  = true
                  <-> exists d x, In d (while_waiting pg) /\ In x d
                                  /\ testid x = Some "null" /\ markdown x <> None).
  { rewrite accepted_wait. split.
    - intros (d & Hd & Hm).
      apply (query_plain_some pg "null" d eq_refl) in Hm.
      destruct Hm as (x & Hx & Hm). exists d, x. tauto.
    - intros (d & x & Hd & Hx & Hm). exists d. split; [exact Hd|].
      apply (query_plain_some pg "null" d eq_refl). exists x. tauto. }
  split; [exact Hsel|]. split; [exact Hwait|].
  intros Hrej.
  pose proof (taken_reads_nothing pg options prompt) as Hquiet.
  destruct (polls_none _ Hquiet) as [Hp0 _].
  destruct (run_shape trim plain_text pg options prompt)
    as [(c' & _ & Hv & Ht) | [(_ & _ & Hv & Ht) | (_ & Hm & _)]].
  - rewrite Ht, Hv. split; [exact Hp0 | eexists; reflexivity].
  - rewrite Ht, Hv, polls_app, Hp0. split; [reflexivity | eexists; reflexivity].
  - exfalso. rewrite Hsel in Hm. apply accepted_wait in Hm.
    rewrite Hrej in Hm. discriminate.
Qed.

End ContainerFacts.

(** ** Thread ids, there and back *)

Section RoundTripFacts.
Import ThreadId.

Lemma url_match_none_app (pre s : string) :
  url_match (pre ++ s) = None -> url_match s = None.
Proof.
  induction pre as [|c pre IH]; [intros H; exact H|].
  change (String c pre ++ s) with (String c (pre ++ s)).
  rewrite url_match_eq.
  destruct (match_here (String c (pre ++ s))); [discriminate | exact IH].
Qed.

Lemma stops_iff (s : string) : stops s = true <-> take_class s = EmptyString.
Proof.
  destruct s as [|c s]; simpl; [split; reflexivity|].
  destruct (in_class c); simpl; split; (reflexivity || discriminate).
Qed.

(** X16.  A thread id that a run returned, given to the next request,
    makes it navigate to an address from which the same thread id is
    extracted; more generally the address built for a non-empty thread id
    gives that id back exactly when the id is made of lowercase hexadecimal
    digits and hyphens. *)
Theorem thread_id_survives_the_round_trip :
  (forall u id,
      url_match u = Some id ->
      url_match (Submission.url_of (Some id)) = Some id)
  /\ (forall id,
        id <> EmptyString ->
        (url_match (Submission.url_of (Some id)) = Some id
         <-> all_class id = true)).
Proof.
  assert (Hurl : forall id, id <> EmptyString ->
                 Submission.url_of (Some id) = Flow.base ++ "/c/" ++ id).
  { intros id Hne. unfold Submission.url_of. simpl.
    apply truthy_nonempty in Hne. rewrite Hne. reflexivity. }
  split.
  - intros u id H.
    destruct (url_match_some _ _ H) as (pre & rest & _ & _ & Hall & Hne).
    rewrite (Hurl id Hne). apply url_match_thread; assumption.
  - intros id Hne. rewrite (Hurl id Hne). split.
    + intros H. destruct (url_match_some _ _ H) as (pre & rest & _ & _ & Hall & _).
      exact Hall.
    + intros Hall. apply url_match_thread; assumption.
Qed.

(** X17.  The thread id is [null] exactly when no [/c/] of the address is
    followed by a lowercase hexadecimal digit or a hyphen; an address
    without [/c/], such as the base URL, has none. *)
Theorem thread_id_is_null_without_marked_id (u : string) :
  (url_match u = None
   <-> forall pre rest, u = pre ++ "/c/" ++ rest -> stops rest = true)
  /\ (has_marker u = false -> url_match u = None).
Proof.
  assert (Hiff : url_match u = None
                 <-> forall pre rest, u = pre ++ "/c/" ++ rest -> stops rest = true).
  { split.
    - intros H pre rest Hu. rewrite Hu in H. apply url_match_none_app in H.
      rewrite url_match_at_marker in H. apply stops_iff.
      destruct (take_class rest); [reflexivity | discriminate].
    - intros H. destruct (url_match u) as [id|] eqn:E; [|reflexivity].
      destruct (url_match_some _ _ E) as (pre & rest & Hu & _ & Hall & Hne).
      specialize (H pre (id ++ rest) Hu). exfalso.
      destruct id as [|c id]; [apply Hne; reflexivity|].
      simpl in H, Hall. apply andb_true_iff in Hall. destruct Hall as [Hc _].
      rewrite Hc in H. discriminate. }
  split; [exact Hiff|].
  intros Hno. apply Hiff. intros pre rest Hu. exfalso. subst u.
  clear Hiff. induction pre as [|c pre IH].
  - simpl in Hno. discriminate.
  - change (String c pre ++ "/c/" ++ rest) with (String c (pre ++ "/c/" ++ rest)) in Hno.
    rewrite has_marker_eq in Hno.
    destruct (after_marker (String c (pre ++ "/c/" ++ rest))); [discriminate|].
    exact (IH Hno).
Qed.

End RoundTripFacts.

(** ** The gate without a secret *)

Section GateFacts.
Import ApiKey.

(** X18.  Outside development mode a deployment whose secret is unset or
    empty admits no request at all: with or without a header, every request
    is answered 401. *)
Theorem unset_secret_admits_nothing (e : env) (req : request) :
  NODE_ENV e <> Some "development" ->
  ERKUT_API_KEY e = None \/ ERKUT_API_KEY e = Some EmptyString ->
  verifyApiKey e req = Sent invalid_api_key.
Proof.
  intros Hmode Hsecret. unfold verifyApiKey.
  destruct (Js.strict_eq (NODE_ENV e) (Some "development")) eqn:E;
    [apply strict_eq_some in E; contradiction|].
  destruct (negb (Js.truthy_opt (header req "ERKUT-API-KEY"))
            || negb (Js.strict_eq (header req "ERKUT-API-KEY") (ERKUT_API_KEY e)))%bool
    eqn:K; [reflexivity|].
  apply key_accepted in K. destruct K as (key & Hne & _ & Hkey).
  destruct Hsecret as [H|H]; rewrite H in Hkey; [discriminate|].
  inversion Hkey. subst key. contradiction Hne. reflexivity.
Qed.

End GateFacts.

(** ** More runs on the test doubles *)

(** On the site, the password field never shows up: the login throws there,
    having written the email and clicked the submit button. *)
Lemma login_stops_at_rejected_command_witness :
  snd (Login.performLoginWithBasicAuth Doubles.credentials Doubles.no_password_field)
  = Some (Login.Fill Login.password_field (Some "hunter2"))
  /\ Login.filled
       (fst (Login.performLoginWithBasicAuth Doubles.credentials
               Doubles.no_password_field))
     = [(Login.email_field, Some "me@example.org");
        (Login.password_field, Some "hunter2")]
  /\ ~ In (Login.Warn Login.LoginComplete)
          (fst (Login.performLoginWithBasicAuth Doubles.credentials
                  Doubles.no_password_field)).
Proof.
  assert (Hthrown : snd (Login.performLoginWithBasicAuth Doubles.credentials
                           Doubles.no_password_field)
                    = Some (Login.Fill Login.password_field (Some "hunter2")))
    by reflexivity.
  split; [exact Hthrown|]. split; [reflexivity|].
  exact (proj2 (proj2 (login_stops_at_rejected_command Doubles.credentials
                         Doubles.no_password_field _ Hthrown))).
Defined.

(** From a blank tab the login goes home first; the password is the
    eleventh command or notice after that. *)
Lemma password_follows_submitted_email_witness :
  fst (Login.performLoginWithBasicAuth Doubles.credentials Doubles.blank_tab)
  = (firstn 11 (Login.script Doubles.credentials Doubles.blank_tab)
     ++ Login.Do (Login.Fill Login.password_field (Some "hunter2"))
     :: skipn 12 (Login.script Doubles.credentials Doubles.blank_tab))%list
  /\ In (Login.Do (Login.Click Login.submit_button))
        (firstn 11 (Login.script Doubles.credentials Doubles.blank_tab)).
Proof.
  assert (Hrun : fst (Login.performLoginWithBasicAuth Doubles.credentials
                        Doubles.blank_tab)
                 = (firstn 11 (Login.script Doubles.credentials Doubles.blank_tab)
                    ++ Login.Do (Login.Fill Login.password_field (Some "hunter2"))
                    :: skipn 12 (Login.script Doubles.credentials Doubles.blank_tab))%list)
    by reflexivity.
  split; [exact Hrun|].
  destruct (password_follows_submitted_email Doubles.credentials Doubles.blank_tab
              _ _ _ _ Hrun) as [[Hfield _] | (_ & _ & _ & Hclick)].
  - exfalso. symmetry in Hfield. vm_compute in Hfield. discriminate Hfield.
  - exact Hclick.
Defined.

(** The editor rejects typing: the typing is the last event of the run,
    which throws its error. *)
Lemma nothing_follows_a_rejected_command_witness :
  Flow.trace (Flow.promptWithOptions Examples.trim_ascii Examples.as_is
                Doubles.read_only Doubles.both_modes "hi")
  = (firstn 11 (Submission.script Doubles.both_modes "hi")
     ++ [Flow.Command (Flow.EditorType (Flow.promptContext ++ "hi"))])%list
  /\ Submission.accepted Doubles.read_only
       (Flow.EditorType (Flow.promptContext ++ "hi")) = false
  /\ Flow.value (Flow.promptWithOptions Examples.trim_ascii Examples.as_is
                   Doubles.read_only Doubles.both_modes "hi")
     = Flow.Thrown (Flow.Rejected (Flow.EditorType (Flow.promptContext ++ "hi"))).
Proof.
  assert (Hrun : Flow.trace (Flow.promptWithOptions Examples.trim_ascii
                               Examples.as_is Doubles.read_only
                               Doubles.both_modes "hi")
                 = (firstn 11 (Submission.script Doubles.both_modes "hi")
                    ++ [Flow.Command
                          (Flow.EditorType (Flow.promptContext ++ "hi"))])%list)
    by reflexivity.
  split; [exact Hrun|]. split; [reflexivity|].
  exact (proj2 (proj2 (proj2 (proj2
           (nothing_follows_a_rejected_command Examples.trim_ascii Examples.as_is
              Doubles.read_only Doubles.both_modes "hi" _ _ _ Hrun))))
           eq_refl).
Defined.

(** The streamed reply: the converter is given the text of the fourth
    poll. *)
Lemma converter_gets_null_or_polled_text_witness :
  exists finalText,
    Some "Hello world" = Flow.convert Examples.as_is finalText
    /\ (finalText = None
        \/ exists k text,
             k < Flow.POLL_LIMIT false
             /\ finalText = Some text
             /\ text <> EmptyString
             /\ text = Flow.sample Examples.trim_ascii Examples.streaming
                         (Flow.mdSelector
                            (Js.pop (map Flow.testid
                                       (Flow.at_listing Examples.streaming)))) k).
Proof.
  exact (converter_gets_null_or_polled_text Examples.trim_ascii Examples.as_is
           Examples.streaming Examples.fresh "hi"
           {| Flow.Result.threadId := Some "abc-123";
              Flow.Result.response := Some "Hello world" |}
           eq_refl).
Defined.

(** The streamed reply, resumed with both modes on: the prompt is the
    twelfth event of the run. *)
Lemma prompt_is_typed_into_cleared_editor_witness :
  In (Flow.Command Flow.EditorClear)
     (firstn 11 (Flow.trace (Flow.promptWithOptions Examples.trim_ascii
                               Examples.as_is Examples.streaming
                               Doubles.both_modes "hi")))
  /\ nth_error (Flow.trace (Flow.promptWithOptions Examples.trim_ascii
                              Examples.as_is Examples.streaming
                              Doubles.both_modes "hi")) 11
     = Some (Flow.Command (Flow.EditorType (Flow.promptContext ++ "hi"))).
Proof.
  assert (Hrun : Flow.trace (Flow.promptWithOptions Examples.trim_ascii
                               Examples.as_is Examples.streaming
                               Doubles.both_modes "hi")
                 = (firstn 11 (Flow.trace (Flow.promptWithOptions Examples.trim_ascii
                                             Examples.as_is Examples.streaming
                                             Doubles.both_modes "hi"))
                    ++ Flow.Command (Flow.EditorType (Flow.promptContext ++ "hi"))
                    :: skipn 12 (Flow.trace (Flow.promptWithOptions
                                               Examples.trim_ascii Examples.as_is
                                               Examples.streaming
                                               Doubles.both_modes "hi")))%list)
    by reflexivity.
  split; [|reflexivity].
  exact (proj1 (proj2 (proj2 (prompt_is_typed_into_cleared_editor Examples.trim_ascii
                                Examples.as_is Examples.streaming Doubles.both_modes
                                "hi" _ _ _ Hrun)))).
Defined.

(** Two pages that agree on the first four polls, within a budget of four. *)
Lemma polling_reads_only_the_budget_witness :
  Flow.at_poll Examples.streaming 4 <> Flow.at_poll Doubles.streamed_then_gone 4
  /\ Flow.value (Flow.stabilize Examples.trim_ascii Examples.streaming
                   Examples.turn2 4)
     = Flow.value (Flow.stabilize Examples.trim_ascii Doubles.streamed_then_gone
                     Examples.turn2 4).
Proof.
  split; [discriminate|].
  apply (polling_reads_only_the_budget Examples.trim_ascii Examples.streaming
           Doubles.streamed_then_gone Examples.turn2 Examples.turn2 4).
  intros i Hi.
  destruct i as [|[|[|[|i]]]]; try reflexivity. lia.
Defined.

(** The streamed reply stabilizes within 300 polls, and so within 600. *)
Lemma larger_budget_keeps_stable_result_witness :
  Flow.POLL_LIMIT false <= Flow.POLL_LIMIT true
  /\ Flow.value (Flow.stabilize Examples.trim_ascii Examples.streaming
                   Examples.turn2 (Flow.POLL_LIMIT true))
     = Flow.Returned (Some "Hello world").
Proof.
  assert (Hle : Flow.POLL_LIMIT false <= Flow.POLL_LIMIT true) by (simpl; lia).
  split; [exact Hle|].
  assert (Hstable : ~ In (Flow.Console Flow.NeverStabilized)
                         (Flow.trace (Flow.stabilize Examples.trim_ascii
                                        Examples.streaming Examples.turn2
                                        (Flow.POLL_LIMIT false)))).
  { intros H. vm_compute in H.
    repeat (destruct H as [H|H]; [discriminate H|]). exact H. }
  exact (proj1 (larger_budget_keeps_stable_result Examples.trim_ascii
                  Examples.streaming Examples.turn2 _ _ Hle Hstable)).
Defined.

(** The streamed reply: the second article is the one watched. *)
Lemma latest_article_is_watched_witness :
  Flow.at_listing Examples.streaming
  = ([Examples.question] ++ [Examples.reply "conversation-turn-2" ""])%list
  /\ Flow.plain "conversation-turn-2" = true
  /\ Flow.mdSelector (Js.pop (map Flow.testid (Flow.at_listing Examples.streaming)))
     = Examples.turn2
  /\ Flow.query Examples.streaming Examples.turn2 (Flow.at_poll Examples.streaming 1)
     = Some "Hello".
Proof.
  assert (Hlist : Flow.at_listing Examples.streaming
                  = ([Examples.question]
                     ++ [Examples.reply "conversation-turn-2" ""])%list)
    by reflexivity.
  assert (Hplain : Flow.plain "conversation-turn-2" = true) by reflexivity.
  split; [exact Hlist|]. split; [exact Hplain|].
  destruct (latest_article_is_watched Examples.streaming _ _ Hlist Hplain)
    as (Hsel & Hfound & _).
  split; [exact Hsel|].
  apply (Hfound [Examples.question] (Examples.reply "conversation-turn-2" "Hello")
           [] "Hello" eq_refl eq_refl).
  intros x [<-|[]] Hid. discriminate Hid.
Defined.

(** The untagged reply is there all along: the flow waits for an article
    tagged [null], and the run throws. *)
Lemma article_without_test_id_is_not_watched_witness :
  Flow.mdSelector (Js.pop (map Flow.testid (Flow.at_listing Doubles.untagged)))
  = "article[data-testid=" ++ Flow.dquote ++ "null" ++ Flow.dquote ++ "] div.markdown"
  /\ Flow.polls (Flow.trace (Flow.promptWithOptions Examples.trim_ascii Examples.as_is
                               Doubles.untagged Examples.fresh "hi")) = 0
  /\ exists c,
       Flow.value (Flow.promptWithOptions Examples.trim_ascii Examples.as_is
                     Doubles.untagged Examples.fresh "hi")
       = Flow.Thrown (Flow.Rejected c).
Proof.
  destruct (article_without_test_id_is_not_watched Examples.trim_ascii Examples.as_is
              Doubles.untagged Examples.fresh "hi"
              [Examples.question]
              {| Flow.testid := None; Flow.markdown := Some "Hello" |}
              eq_refl eq_refl) as (Hsel & _ & Hrun).
  split; [exact Hsel|]. exact (Hrun eq_refl).
Defined.

(** An article tagged with the word [null] shows up during the wait: it is
    the one polled, and its text is returned. *)
Lemma null_tagged_article_is_polled :
  Flow.value (Flow.promptWithOptions Examples.trim_ascii Examples.as_is
                Doubles.null_tagged Examples.fresh "hi")
  = Flow.Returned {| Flow.Result.threadId := Some "abc-123";
                     Flow.Result.response := Some "Hi" |}.
Proof. vm_compute. reflexivity. Qed.

(** A test id with a double quote in it: the selector written around it is
    not read as selecting by that id; on a page that finds nothing for it,
    the wait is rejected though the article is there. *)
Lemma quoted_test_id_is_not_read :
  Flow.selector_testid
    (Flow.mdSelector (Js.pop (map Flow.testid (Flow.at_listing Doubles.quoted))))
  = None
  /\ Flow.value (Flow.promptWithOptions Examples.trim_ascii Examples.as_is
                   Doubles.quoted Examples.fresh "hi")
     = Flow.Thrown
         (Flow.Rejected
            (Flow.WaitForSelector
               (Flow.mdSelector
                  (Js.pop (map Flow.testid (Flow.at_listing Doubles.quoted))))
               (Some 30000%N))).
Proof. split; vm_compute; reflexivity. Qed.

(** No secret is configured: a request without a header is answered 401. *)
Lemma unset_secret_admits_nothing_witness :
  ApiKey.verifyApiKey Doubles.no_secret (ApiKey.request_with [])
  = ApiKey.Sent ApiKey.invalid_api_key.
Proof.
  apply unset_secret_admits_nothing.
  - discriminate.
  - left. reflexivity.
Defined.
